(** * A shallow embedding of the banking ledger of [cmsc23.py]

    The Python module defines an abstract [BankAccount], its three
    subclasses [PayrollAccount], [DebitAccount] and [CreditAccount], and
    the registry [BankSystem].  Account objects are mutable and shared by
    reference (the registry's dictionary, the value returned by
    [create_account] and the [target_account] argument of [transfer] may
    all denote the same object), so the embedding keeps them in an explicit
    object store and threads that store through every method.

    Amounts are Python numbers.  They are embedded as exact rationals [Q]:
    comparisons and the arithmetic [+], [-], [*] are those of the source,
    without the rounding of binary floating point. *)

From Stdlib Require Import Ascii String QArith Qabs Qpower Lqa DecimalString DecimalNat.
From stdpp Require Import gmap strings list fin_maps.

Local Open Scope string_scope.

(** ** Numbers *)

(** Python's [x > y] on numbers. *)
Definition Qgtb (x y : Q) : bool := negb (Qle_bool x y).

(** Python's [x < y] on numbers. *)
Definition Qltb (x y : Q) : bool := Qgtb y x.

(** Python's built-in [max(x, y)]: the first argument wins a tie. *)
Definition py_max (x y : Q) : Q := if Qgtb y x then y else x.

(** ** Account objects *)

(** The attributes a subclass adds to those of [BankAccount]; the
    constructor names are the class names. *)
Inductive subclass : Type :=
| PayrollAccount
| DebitAccount (interest_rate required_balance : Q)
| CreditAccount (credit_limit credit_balance interest_rate : Q).

Record BankAccount : Type := mkAccount {
  account_number : string;
  owner : string;
  balance : Q;
  is_active : bool;
  cls : subclass
}.

(** Attribute assignments [self.balance = v], [self.is_active = b],
    [self.credit_balance = v]. *)
Definition set_balance (a : BankAccount) (v : Q) : BankAccount :=
  mkAccount (account_number a) (owner a) v (is_active a) (cls a).

Definition set_is_active (a : BankAccount) (b : bool) : BankAccount :=
  mkAccount (account_number a) (owner a) (balance a) b (cls a).

Definition set_credit_balance (a : BankAccount) (v : Q) : BankAccount :=
  match cls a with
  | CreditAccount lim _ rate =>
      mkAccount (account_number a) (owner a) (balance a) (is_active a)
                (CreditAccount lim v rate)
  | _ => a
  end.

(** ** The object store and the world *)

Definition loc := positive.

(** The state a run of the program can observe: the account objects, the
    dictionary [self.accounts] of the one [BankSystem], and what was
    printed. *)
Record world : Type := World {
  heap : gmap loc BankAccount;
  accounts : gmap string loc;
  stdout : list string
}.

Definition fresh_world : world := World ∅ ∅ [].

(** ** Results and the state monad *)

Inductive exn : Type :=
| NotImplementedError (msg : string)
| ValueError (msg : string).

(** A call returns a value, raises a Python exception, or is [Stuck] on a
    reference that denotes no object.  The last cannot happen in Python,
    where every reference is live; it only makes the store lookup total. *)
Inductive outcome (A : Type) : Type :=
| Return (a : A)
| Raise (e : exn)
| Stuck.
Arguments Return {A} a.
Arguments Raise {A} e.
Arguments Stuck {A}.

(** The dictionary [get_account_info] builds. *)
Record account_info : Type := mkInfo {
  info_account_number : string;
  info_owner : string;
  info_balance : Q;
  info_is_active : bool;
  info_account_type : string
}.

(** An f-string before the conversion of its numbers to text, which is
    that of Python's floats and is not modelled. *)
Inductive piece : Type :=
| Text (s : string)
| Number (x : Q).

(** The values the methods return: a boolean, [None], an account object,
    the dictionary of [get_account_info], a string, an f-string. *)
Inductive value : Type :=
| VBool (b : bool)
| VNone
| VRef (l : loc)
| VInfo (i : account_info)
| VStr (s : string)
| VFString (f : list piece).

Definition M (A : Type) : Type := world -> outcome A * world.

Definition ret {A} (a : A) : M A := fun w => (Return a, w).

Definition bind {A B} (m : M A) (k : A -> M B) : M B :=
  fun w =>
    match m w with
    | (Return a, w') => k a w'
    | (Raise e, w') => (Raise e, w')
    | (Stuck, w') => (Stuck, w')
    end.

Definition raise {A} (e : exn) : M A := fun w => (Raise e, w).

Notation "'let*' x ':=' m 'in' k" := (bind m (fun x => k))
  (at level 10, x name, m at level 100, k at level 200).
Notation "m '>>' k" := (bind m (fun _ => k))
  (at level 100, k at level 200, right associativity).

(** Reading the object behind a reference. *)
Definition get_obj (l : loc) : M BankAccount :=
  fun w => match heap w !! l with
           | Some a => (Return a, w)
           | None => (Stuck, w)
           end.

(** Writing back the object behind a reference. *)
Definition put_obj (l : loc) (a : BankAccount) : M unit :=
  fun w => (Return tt, World (<[l:=a]> (heap w)) (accounts w) (stdout w)).

(** Object creation: the new object gets a reference no object has. *)
Definition new_obj (a : BankAccount) : M loc :=
  fun w => let l := fresh (dom (heap w)) in
           (Return l, World (<[l:=a]> (heap w)) (accounts w) (stdout w)).

Definition print (s : string) : M unit :=
  fun w => (Return tt, World (heap w) (accounts w) (stdout w ++ [s])).

Definition get_accounts : M (gmap string loc) :=
  fun w => (Return (accounts w), w).

Definition put_accounts (d : gmap string loc) : M unit :=
  fun w => (Return tt, World (heap w) d (stdout w)).

(** ** [BankAccount] and its subclasses *)

(** [BankAccount.__init__]: a new account is active. *)
Definition BankAccount_init (account_number owner : string) (balance : Q)
    (c : subclass) : BankAccount :=
  mkAccount account_number owner balance true c.

Definition BankAccount_activate_account (self : loc) : M unit :=
  let* a := get_obj self in
  put_obj self (set_is_active a true).

Definition BankAccount_deactivate_account (self : loc) : M unit :=
  let* a := get_obj self in
  put_obj self (set_is_active a false).

(** [self.__class__.__name__] *)
Definition class_name (c : subclass) : string :=
  match c with
  | PayrollAccount => "PayrollAccount"
  | DebitAccount _ _ => "DebitAccount"
  | CreditAccount _ _ _ => "CreditAccount"
  end.

Definition BankAccount_get_account_info (self : loc) : M account_info :=
  let* a := get_obj self in
  ret (mkInfo (account_number a) (owner a) (balance a) (is_active a)
         (class_name (cls a))).

Definition BankAccount_get_balance_report (self : loc) : M (list piece) :=
  let* a := get_obj self in
  ret [Text "Balance for "; Text (owner a); Text "'s ";
       Text (class_name (cls a)); Text ": "; Number (balance a)].

(** *** [PayrollAccount] *)

Definition PayrollAccount_new (account_number owner : string) (balance : Q)
    : M loc :=
  new_obj (BankAccount_init account_number owner balance PayrollAccount).

Definition PayrollAccount_withdraw (self : loc) (amount : Q) : M bool :=
  let* a := get_obj self in
  if negb (is_active a) then
    print "Account is inactive." >> ret false
  else if Qgtb amount (balance a) then
    print "Insufficient balance." >> ret false
  else
    put_obj self (set_balance a (balance a - amount)) >>
    ret true.

Definition PayrollAccount_deposit (self : loc) (amount : Q) : M bool :=
  raise (NotImplementedError "Deposits are not allowed for Payroll Accounts.").

Definition PayrollAccount_transfer (self target_account : loc) (amount : Q)
    : M bool :=
  raise (NotImplementedError "Transfers are not allowed from Payroll Accounts.").

Definition PayrollAccount_apply_monthly_changes (self : loc) : M unit :=
  ret tt.

(** *** [DebitAccount] *)

Definition DebitAccount_new (account_number owner : string) (balance : Q)
    (interest_rate required_balance : Q) : M loc :=
  new_obj (BankAccount_init account_number owner balance
             (DebitAccount interest_rate required_balance)).

Definition DebitAccount_withdraw (self : loc) (amount : Q) : M bool :=
  let* a := get_obj self in
  if negb (is_active a) then
    print "Account is inactive." >> ret false
  else if Qgtb amount (balance a) then
    print "Insufficient balance." >> ret false
  else
    put_obj self (set_balance a (balance a - amount)) >>
    ret true.

Definition DebitAccount_deposit (self : loc) (amount : Q) : M bool :=
  let* a := get_obj self in
  if negb (is_active a) then
    print "Account is inactive." >> ret false
  else
    put_obj self (set_balance a (balance a + amount)) >>
    ret true.

(** [target_account.balance += amount] reads the target after
    [self.balance -= amount] was stored, so a transfer to the account
    itself sees the debited balance. *)
Definition DebitAccount_transfer (self target_account : loc) (amount : Q)
    : M bool :=
  let* a := get_obj self in
  if negb (is_active a) then
    print "Account is inactive." >> ret false
  else if Qgtb amount (balance a) then
    print "Insufficient balance." >> ret false
  else
    put_obj self (set_balance a (balance a - amount)) >>
    let* t := get_obj target_account in
    put_obj target_account (set_balance t (balance t + amount)) >>
    ret true.

Definition DebitAccount_apply_monthly_changes (self : loc) : M unit :=
  let* a := get_obj self in
  match cls a with
  | DebitAccount interest_rate required_balance =>
      if is_active a then
        put_obj self (set_balance a (balance a * (1 + interest_rate))) >>
        let* a := get_obj self in
        if Qltb (balance a) required_balance then
          BankAccount_deactivate_account self
        else ret tt
      else ret tt
  | _ => fun w => (Stuck, w)
  end.

(** *** [CreditAccount] *)

(** [CreditAccount.__init__]: nothing is owed at creation, whatever the
    [balance] argument. *)
Definition CreditAccount_new (account_number owner : string) (balance : Q)
    (credit_limit interest_rate : Q) : M loc :=
  new_obj (BankAccount_init account_number owner balance
             (CreditAccount credit_limit 0 interest_rate)).

Definition CreditAccount_withdraw (self : loc) (amount : Q) : M bool :=
  let* a := get_obj self in
  match cls a with
  | CreditAccount credit_limit credit_balance _ =>
      if negb (is_active a) then
        print "Account is inactive." >> ret false
      else if Qgtb (credit_balance + amount) credit_limit then
        print "Credit limit exceeded." >> ret false
      else
        put_obj self (set_credit_balance a (credit_balance + amount)) >>
        ret true
  | _ => fun w => (Stuck, w)
  end.

Definition CreditAccount_deposit (self : loc) (amount : Q) : M bool :=
  let* a := get_obj self in
  match cls a with
  | CreditAccount _ credit_balance _ =>
      if negb (is_active a) then
        print "Account is inactive." >> ret false
      else
        put_obj self (set_credit_balance a (py_max 0 (credit_balance - amount))) >>
        ret true
  | _ => fun w => (Stuck, w)
  end.

Definition CreditAccount_transfer (self target_account : loc) (amount : Q)
    : M bool :=
  let* a := get_obj self in
  match cls a with
  | CreditAccount credit_limit credit_balance _ =>
      if negb (is_active a) then
        print "Account is inactive." >> ret false
      else if Qgtb (credit_balance + amount) credit_limit then
        print "Credit limit exceeded." >> ret false
      else
        put_obj self (set_credit_balance a (credit_balance + amount)) >>
        let* t := get_obj target_account in
        put_obj target_account (set_balance t (balance t + amount)) >>
        ret true
  | _ => fun w => (Stuck, w)
  end.

Definition CreditAccount_apply_monthly_changes (self : loc) : M unit :=
  let* a := get_obj self in
  match cls a with
  | CreditAccount _ credit_balance interest_rate =>
      if is_active a && Qgtb credit_balance 0 then
        put_obj self (set_credit_balance a (credit_balance * (1 + interest_rate)))
      else ret tt
  | _ => fun w => (Stuck, w)
  end.

(** *** Method dispatch on the class of [self] *)

Definition withdraw (self : loc) (amount : Q) : M bool :=
  let* a := get_obj self in
  match cls a with
  | PayrollAccount => PayrollAccount_withdraw self amount
  | DebitAccount _ _ => DebitAccount_withdraw self amount
  | CreditAccount _ _ _ => CreditAccount_withdraw self amount
  end.

Definition deposit (self : loc) (amount : Q) : M bool :=
  let* a := get_obj self in
  match cls a with
  | PayrollAccount => PayrollAccount_deposit self amount
  | DebitAccount _ _ => DebitAccount_deposit self amount
  | CreditAccount _ _ _ => CreditAccount_deposit self amount
  end.

Definition transfer (self target_account : loc) (amount : Q) : M bool :=
  let* a := get_obj self in
  match cls a with
  | PayrollAccount => PayrollAccount_transfer self target_account amount
  | DebitAccount _ _ => DebitAccount_transfer self target_account amount
  | CreditAccount _ _ _ => CreditAccount_transfer self target_account amount
  end.

Definition apply_monthly_changes (self : loc) : M unit :=
  let* a := get_obj self in
  match cls a with
  | PayrollAccount => PayrollAccount_apply_monthly_changes self
  | DebitAccount _ _ => DebitAccount_apply_monthly_changes self
  | CreditAccount _ _ _ => CreditAccount_apply_monthly_changes self
  end.

(** ** [BankSystem] *)

(** The format specification [04] of Python's f-strings on a non-negative
    integer: its decimal digits, filled with zeros on the left up to a
    width of four characters. *)
Fixpoint zeros (k : nat) : string :=
  match k with
  | O => EmptyString
  | S k => String "0"%char (zeros k)
  end.

Definition format_04 (n : nat) : string :=
  let digits := NilEmpty.string_of_uint (Nat.to_uint n) in
  zeros (4 - String.length digits) ++ digits.

(** The defaults of the constructors' keyword arguments. *)
Definition DebitAccount_default_interest_rate : Q := 0.01.
Definition DebitAccount_default_required_balance : Q := 100.
Definition CreditAccount_default_credit_limit : Q := 500.
Definition CreditAccount_default_interest_rate : Q := 0.02.

(** [create_account] returns the account object, here its reference. *)
Definition create_account (account_type owner : string) (initial_balance : Q)
    : M loc :=
  let* d := get_accounts in
  let account_number := "ACC" ++ format_04 (size d + 1) in
  let* account :=
    (if String.eqb account_type "payroll" then
       PayrollAccount_new account_number owner initial_balance
     else if String.eqb account_type "debit" then
       DebitAccount_new account_number owner initial_balance
         DebitAccount_default_interest_rate
         DebitAccount_default_required_balance
     else if String.eqb account_type "credit" then
       CreditAccount_new account_number owner initial_balance
         CreditAccount_default_credit_limit
         CreditAccount_default_interest_rate
     else raise (ValueError "Invalid account type.")) in
  let* d := get_accounts in
  put_accounts (<[account_number:=account]> d) >>
  ret account.

(** [from_account not in self.accounts or to_account not in self.accounts]
    is the failure of either lookup. *)
Definition transfer_funds (from_account to_account : string) (amount : Q)
    : M bool :=
  let* d := get_accounts in
  match d !! from_account, d !! to_account with
  | Some f, Some t => transfer f t amount
  | _, _ => print "One or both accounts do not exist." >> ret false
  end.

Fixpoint for_each {A} (body : A -> M unit) (xs : list A) : M unit :=
  match xs with
  | [] => ret tt
  | x :: xs => body x >> for_each body xs
  end.

(** The loop runs over [self.accounts.values()].  A Python dictionary
    yields them in insertion order and the finite map in key order; every
    iteration touches only its own account. *)
Definition monthly_update : M unit :=
  let* d := get_accounts in
  for_each apply_monthly_changes (map snd (map_to_list d)).

Definition deactivate_account (account_number : string) : M unit :=
  let* d := get_accounts in
  match d !! account_number with
  | Some l => BankAccount_deactivate_account l
  | None => ret tt
  end.

Definition activate_account (account_number : string) : M unit :=
  let* d := get_accounts in
  match d !! account_number with
  | Some l => BankAccount_activate_account l
  | None => ret tt
  end.

Definition get_account_info (account_number : string) : M value :=
  let* d := get_accounts in
  match d !! account_number with
  | Some l => let* i := BankAccount_get_account_info l in ret (VInfo i)
  | None => ret (VStr "Account not found.")
  end.

Definition get_balance_report (account_number : string) : M value :=
  let* d := get_accounts in
  match d !! account_number with
  | Some l => let* f := BankAccount_get_balance_report l in ret (VFString f)
  | None => ret (VStr "Account not found.")
  end.

(** ** Running the program *)

(** Running a computation on a world. *)
Definition run {A} (m : M A) (w : world) : outcome A * world := m w.

(** A sequence of [create_account] calls, collecting the accounts
    returned. *)
Fixpoint create_all (requests : list (string * string * Q)) : M (list loc) :=
  match requests with
  | [] => ret []
  | (account_type, owner, initial_balance) :: requests =>
      let* l := create_account account_type owner initial_balance in
      let* ls := create_all requests in
      ret (l :: ls)
  end.

(** ** Calls *)

(** The public surface of the module as data, so that a property of every
    operation is one statement.  [self] and [target_account] are object
    references; the [BankSystem] methods take account numbers. *)
Inductive call : Type :=
| Withdraw (self : loc) (amount : Q)
| Deposit (self : loc) (amount : Q)
| Transfer (self target_account : loc) (amount : Q)
| ApplyMonthlyChanges (self : loc)
| ActivateAccount (self : loc)
| DeactivateAccount (self : loc)
| SysCreateAccount (account_type owner : string) (initial_balance : Q)
| SysTransferFunds (from_account to_account : string) (amount : Q)
| SysMonthlyUpdate
| SysDeactivateAccount (account_number : string)
| SysActivateAccount (account_number : string)
| GetAccountInfo (self : loc)
| GetBalanceReport (self : loc)
| SysGetAccountInfo (account_number : string)
| SysGetBalanceReport (account_number : string).

Definition perform (c : call) : M value :=
  match c with
  | Withdraw self amount => let* b := withdraw self amount in ret (VBool b)
  | Deposit self amount => let* b := deposit self amount in ret (VBool b)
  | Transfer self target amount =>
      let* b := transfer self target amount in ret (VBool b)
  | ApplyMonthlyChanges self => apply_monthly_changes self >> ret VNone
  | ActivateAccount self => BankAccount_activate_account self >> ret VNone
  | DeactivateAccount self => BankAccount_deactivate_account self >> ret VNone
  | SysCreateAccount account_type owner initial_balance =>
      let* l := create_account account_type owner initial_balance in
      ret (VRef l)
  | SysTransferFunds from_account to_account amount =>
      let* b := transfer_funds from_account to_account amount in
      ret (VBool b)
  | SysMonthlyUpdate => monthly_update >> ret VNone
  | SysDeactivateAccount account_number =>
      deactivate_account account_number >> ret VNone
  | SysActivateAccount account_number =>
      activate_account account_number >> ret VNone
  | GetAccountInfo self =>
      let* i := BankAccount_get_account_info self in ret (VInfo i)
  | GetBalanceReport self =>
      let* f := BankAccount_get_balance_report self in ret (VFString f)
  | SysGetAccountInfo account_number => get_account_info account_number
  | SysGetBalanceReport account_number => get_balance_report account_number
  end.

(** ** Vocabulary of the statements *)

(** A call fails when it returns [False] or raises. *)
Definition failed (r : outcome value) : Prop :=
  r = Return (VBool false) \/ exists e, r = Raise e.

(** Two worlds with the same accounts and the same registry; the printed
    diagnostics may differ. *)
Definition same_state (w w' : world) : Prop :=
  heap w' = heap w /\ accounts w' = accounts w.

(** Every reference the registry holds denotes an object. *)
Definition registry_live (w : world) : Prop :=
  forall k l, accounts w !! k = Some l -> is_Some (heap w !! l).

(** The references a call is given denote objects. *)
Definition args_live (c : call) (w : world) : Prop :=
  match c with
  | Withdraw self _ | Deposit self _ | ApplyMonthlyChanges self
  | ActivateAccount self | DeactivateAccount self
  | GetAccountInfo self | GetBalanceReport self => is_Some (heap w !! self)
  | Transfer self target _ =>
      is_Some (heap w !! self) /\ is_Some (heap w !! target)
  | _ => True
  end.

(** The account number [create_account] computes when the registry holds
    [n - 1] accounts. *)
Definition account_number_of (n : nat) : string := "ACC" ++ format_04 n.

(** Reading a decimal numeral back, leading zeros included. *)
Definition parse_decimal (s : string) : option nat :=
  option_map Nat.of_uint (NilEmpty.uint_of_string s).

(** The registry's keys are the account numbers of [1 .. len]. *)
Definition numbered (w : world) : Prop :=
  forall s, is_Some (accounts w !! s) <->
            exists k, 1 <= k <= size (accounts w) /\ s = account_number_of k.

(** The class [create_account] instantiates for an account type, with the
    constructor's defaults; [None] for a type it rejects. *)
Definition class_of_type (account_type : string) : option subclass :=
  if String.eqb account_type "payroll" then Some PayrollAccount
  else if String.eqb account_type "debit" then
    Some (DebitAccount DebitAccount_default_interest_rate
            DebitAccount_default_required_balance)
  else if String.eqb account_type "credit" then
    Some (CreditAccount CreditAccount_default_credit_limit 0
            CreditAccount_default_interest_rate)
  else None.

(** An account is active, or it is a [DebitAccount] below its required
    balance. *)
Definition active_or_below (a : BankAccount) : Prop :=
  is_active a = true \/
  exists r m, cls a = DebitAccount r m /\ (balance a < m)%Q.

(** The invariant the data model asks of a [CreditAccount]:
    [0 <= credit_balance <= credit_limit]. *)
Definition credit_inv (a : BankAccount) : Prop :=
  match cls a with
  | CreditAccount credit_limit credit_balance _ =>
      (0 <= credit_balance)%Q /\ (credit_balance <= credit_limit)%Q
  | _ => True
  end.

(** Its lower half, together with an interest rate of at least -1. *)
Definition credit_nonneg (a : BankAccount) : Prop :=
  match cls a with
  | CreditAccount _ credit_balance interest_rate =>
      (0 <= credit_balance)%Q /\ (0 <= 1 + interest_rate)%Q
  | _ => True
  end.

Definition credit_limit_of (a : BankAccount) : option Q :=
  match cls a with
  | CreditAccount credit_limit _ _ => Some credit_limit
  | _ => None
  end.

Definition nonneg_amount (c : call) : Prop :=
  match c with
  | Withdraw _ amount | Deposit _ amount | Transfer _ _ amount
  | SysTransferFunds _ _ amount => (0 <= amount)%Q
  | _ => True
  end.

Definition is_period_update (c : call) : Prop :=
  match c with
  | ApplyMonthlyChanges _ | SysMonthlyUpdate => True
  | _ => False
  end.

(** The amount a credit account owes, if [l] is one. *)
Definition owed (w : world) (l : loc) : option Q :=
  match heap w !! l with
  | Some a =>
      match cls a with
      | CreditAccount _ credit_balance _ => Some credit_balance
      | _ => None
      end
  | None => None
  end.

(** The world [w] with the [balance] attribute of the object at [l]
    replaced by [v]. *)
Definition with_balance (w : world) (l : loc) (v : Q) : world :=
  World (alter (fun a => set_balance a v) l (heap w)) (accounts w) (stdout w).

(** ** Scenarios *)

(** A world with one debit and one credit account, for the instances
    below. *)
Definition two_accounts : world :=
  snd (run (create_account "debit" "Alice" 200 >>
            create_account "credit" "Bob" 0) fresh_world).

Definition example_requests : list (string * string * Q) :=
  [("debit", "Alice", 200%Q); ("credit", "Bob", 0%Q); ("payroll", "Pat", 10%Q)].

(** The registry scenario: two accounts are created and fifty is moved
    from the first to the second through the registry. *)
Definition registry_scenario : M (bool * loc * loc) :=
  let* alice := create_account "debit" "Alice" 200 in
  let* bob := create_account "credit" "Bob" 0 in
  let* r := transfer_funds "ACC0001" "ACC0002" 50 in
  ret (r, alice, bob).

(** A payroll account is created, deactivated, and a deposit is tried. *)
Definition deposit_on_inactive_payroll : M bool :=
  let* acc := create_account "payroll" "Pat" 100 in
  BankAccount_deactivate_account acc >>
  deposit acc 10.

(** A credit account is opened, drawn up to its limit, and a period
    passes. *)
Definition credit_at_limit_then_interest : M loc :=
  let* acc := create_account "credit" "Bob" 0 in
  withdraw acc 500 >>
  apply_monthly_changes acc >>
  ret acc.

(** A credit account is opened and a negative amount is drawn. *)
Definition credit_negative_withdrawal : M loc :=
  let* acc := create_account "credit" "Bob" 0 in
  withdraw acc (-10) >>
  ret acc.

(** An account is opened overdrawn by 100 and -50 is withdrawn. *)
Definition negative_withdrawal_when_overdrawn (account_type : string) : M bool :=
  let* acc := create_account account_type "Dana" (-100) in
  withdraw acc (-50).

(** ** Vocabulary of the further properties *)

(** The class of an account with the amount owed blanked: the attributes
    no method assigns. *)
Definition fixed_attributes (c : subclass) : subclass :=
  match c with
  | CreditAccount credit_limit _ interest_rate =>
      CreditAccount credit_limit 0 interest_rate
  | c => c
  end.

(** Every registry entry leads to an object that carries the entry's key
    as its account number. *)
Definition registry_consistent (w : world) : Prop :=
  forall k l, accounts w !! k = Some l ->
    exists a, heap w !! l = Some a /\ account_number a = k.

(** Every object is the registry's entry under its own account number. *)
Definition registry_complete (w : world) : Prop :=
  forall l a, heap w !! l = Some a -> accounts w !! account_number a = Some l.

(** The worlds a program reaches from the empty registry through the
    module's calls, each given live references. *)
Inductive reachable : world -> Prop :=
| reachable_fresh : reachable fresh_world
| reachable_step (c : call) (w : world) :
    reachable w -> args_live c w -> reachable (snd (perform c w)).

(** The amounts a call is given are not negative. *)
Definition nonneg_args (c : call) : Prop :=
  match c with
  | Withdraw _ amount | Deposit _ amount | Transfer _ _ amount
  | SysTransferFunds _ _ amount => (0 <= amount)%Q
  | SysCreateAccount _ _ initial_balance => (0 <= initial_balance)%Q
  | _ => True
  end.

(** An account holds a balance that is not negative, and a debit account
    an interest rate of at least -1. *)
Definition balance_nonneg (a : BankAccount) : Prop :=
  (0 <= balance a)%Q /\
  match cls a with
  | DebitAccount interest_rate _ => (0 <= 1 + interest_rate)%Q
  | _ => True
  end.

Definition balances_nonneg (w : world) : Prop :=
  forall l a, heap w !! l = Some a -> balance_nonneg a.

(** [n] period updates of one account in a row. *)
Definition periods (n : nat) (self : loc) : M unit :=
  for_each apply_monthly_changes (replicate n self).

(** The test [withdraw] makes before it moves money. *)
Definition covers (a : BankAccount) (amount : Q) : Prop :=
  match cls a with
  | CreditAccount credit_limit credit_balance _ =>
      (credit_balance + amount <= credit_limit)%Q
  | _ => (amount <= balance a)%Q
  end.



(** The registry's [deactivate_account] followed by its
    [activate_account] on the same account number. *)
Definition deactivate_then_activate (account_number : string) : M unit :=
  deactivate_account account_number >>
  activate_account account_number.

(** [create_account] followed by [get_account_info] on the number of the
    account just created. *)
Definition create_then_get_info (account_type holder : string)
    (initial_balance : Q) : M value :=
  let* acc := create_account account_type holder initial_balance in
  let* a := get_obj acc in
  get_account_info (account_number a).

(** The four calls that only report. *)
Definition is_read (c : call) : Prop :=
  match c with
  | GetAccountInfo _ | GetBalanceReport _
  | SysGetAccountInfo _ | SysGetBalanceReport _ => True
  | _ => False
  end.

(** What [get_account_info] and [get_balance_report] show of an
    account. *)
Definition info_of (a : BankAccount) : account_info :=
  mkInfo (account_number a) (owner a) (balance a) (is_active a)
    (class_name (cls a)).

Definition report_of (a : BankAccount) : list piece :=
  [Text "Balance for "; Text (owner a); Text "'s ";
   Text (class_name (cls a)); Text ": "; Number (balance a)].

(** ** Basic facts *)

Lemma Qgtb_true (x y : Q) : Qgtb x y = true <-> (y < x)%Q.
Proof.
  unfold Qgtb. rewrite negb_true_iff, <- not_true_iff_false, Qle_bool_iff.
  split; [apply Qnot_le_lt | apply Qlt_not_le].
Qed.

Lemma Qgtb_false (x y : Q) : Qgtb x y = false <-> (x <= y)%Q.
Proof. unfold Qgtb. rewrite negb_false_iff. apply Qle_bool_iff. Qed.

Lemma py_max_0_nonneg (x : Q) : (0 <= py_max 0 x)%Q.
Proof.
  unfold py_max. destruct (Qgtb x 0) eqn:E.
  - apply Qgtb_true in E. now apply Qlt_le_weak.
  - apply Qle_refl.
Qed.

Lemma py_max_0_le (x y : Q) : (0 <= y)%Q -> (x <= y)%Q -> (py_max 0 x <= y)%Q.
Proof. unfold py_max. now destruct (Qgtb x 0). Qed.

Lemma same_state_refl (w : world) : same_state w w.
Proof. now split. Qed.

(** ** Symbolic execution of the method bodies *)

Ltac unfold_methods :=
  unfold perform, withdraw, deposit, transfer, apply_monthly_changes,
    transfer_funds, create_account, deactivate_account, activate_account,
    get_account_info, get_balance_report, BankAccount_get_account_info,
    BankAccount_get_balance_report,
    PayrollAccount_withdraw, PayrollAccount_deposit, PayrollAccount_transfer,
    PayrollAccount_apply_monthly_changes, PayrollAccount_new,
    DebitAccount_withdraw, DebitAccount_deposit, DebitAccount_transfer,
    DebitAccount_apply_monthly_changes, DebitAccount_new,
    CreditAccount_withdraw, CreditAccount_deposit, CreditAccount_transfer,
    CreditAccount_apply_monthly_changes, CreditAccount_new,
    BankAccount_activate_account, BankAccount_deactivate_account,
    run, bind, ret, raise, get_obj, put_obj, new_obj, print, get_accounts,
    put_accounts in *.

Ltac case_step :=
  match goal with
  | |- context [match ?m !! ?l with _ => _ end] => destruct (m !! l) eqn:?
  | |- context [match cls ?a with _ => _ end] => destruct (cls a) eqn:?
  | |- context [if ?b then _ else _] => destruct b eqn:?
  end.

Ltac exec :=
  repeat first [ progress unfold_methods
               | progress simpl
               | rewrite lookup_insert_eq
               | case_step; simplify_eq/= ].

(** ** Failure leaves the state alone *)

Lemma apply_monthly_changes_no_raise l w e :
  fst (apply_monthly_changes l w) <> Raise e.
Proof. exec; discriminate. Qed.

Lemma for_each_no_raise {A} (body : A -> M unit) xs :
  (forall x w e, fst (body x w) <> Raise e) ->
  forall w e, fst (for_each body xs w) <> Raise e.
Proof.
  intros Hbody. induction xs as [|x xs IH]; intros w e; simpl.
  - discriminate.
  - unfold bind. specialize (Hbody x w).
    destruct (body x w) as [[[]|e'|] w']; simpl in *.
    + apply IH.
    + now destruct (Hbody e').
    + discriminate.
Qed.

Lemma monthly_update_no_raise w e : fst (monthly_update w) <> Raise e.
Proof.
  unfold monthly_update, bind, get_accounts.
  apply for_each_no_raise, apply_monthly_changes_no_raise.
Qed.

(** C3: a call that returns [False] or raises leaves every account object
    and the registry's dictionary as they were. *)
Theorem failure_is_atomic (c : call) (w : world) :
  failed (fst (perform c w)) -> same_state w (snd (perform c w)).
Proof.
  intros Hf. destruct c.
  9: { exfalso. revert Hf. unfold perform, bind.
       pose proof (monthly_update_no_raise w) as H.
       destruct (monthly_update w) as [[[]|e'|] w']; simpl in *;
         intros [Hf | [e Hf]]; try discriminate.
       now destruct (H e'). }
  all: revert Hf; exec; intros [Hf | [e Hf]]; try discriminate;
    split; reflexivity.
Qed.

Lemma failure_is_atomic_witness :
  same_state two_accounts (snd (perform (Withdraw 1%positive 500) two_accounts)).
Proof. apply failure_is_atomic. left. vm_compute. reflexivity. Defined.

(** The [Stuck] outcome is an artefact of the store: with live references
    no call ends in it. *)
Lemma apply_monthly_changes_live l w l' :
  is_Some (heap w !! l') -> is_Some (heap (snd (apply_monthly_changes l w)) !! l').
Proof.
  intros H. exec; auto.
  all: repeat (rewrite lookup_insert; case_decide; simplify_eq/=); eauto.
Qed.

Lemma apply_monthly_changes_not_stuck l w :
  is_Some (heap w !! l) -> fst (apply_monthly_changes l w) <> Stuck.
Proof.
  intros [a Ha]. exec; try discriminate.
  all: rewrite lookup_insert_eq in *; simplify_eq.
Qed.

Lemma monthly_loop_not_stuck ls : forall w,
  (forall l, l ∈ ls -> is_Some (heap w !! l)) ->
  fst (for_each apply_monthly_changes ls w) <> Stuck.
Proof.
  induction ls as [|l ls IH]; intros w Hlive; simpl; [discriminate|].
  unfold bind.
  pose proof (apply_monthly_changes_not_stuck l w) as Hl.
  pose proof (apply_monthly_changes_no_raise l w) as Hr.
  pose proof (fun l' => apply_monthly_changes_live l w l') as Hk.
  destruct (apply_monthly_changes l w) as [[[]|e|] w']; simpl in *.
  - apply IH. intros l' Hl'. apply Hk, Hlive. now right.
  - now destruct (Hr e).
  - apply Hl. apply Hlive. now left.
Qed.

Lemma perform_not_stuck (c : call) (w : world) :
  registry_live w -> args_live c w -> fst (perform c w) <> Stuck.
Proof.
  intros Hreg Hargs. destruct c.
  9: { unfold perform, bind.
       pose proof (monthly_loop_not_stuck (map snd (map_to_list (accounts w))) w) as H.
       unfold monthly_update, bind, get_accounts in *.
       destruct (for_each _ _ _) as [[[]|e|] w']; simpl in *; try discriminate.
       intros _. apply H; [|reflexivity]. intros l Hl. apply list_elem_of_fmap in Hl as [[k l'] [-> Hk]].
       apply elem_of_map_to_list in Hk. eapply Hreg, Hk. }
  all: simpl in Hargs; exec; try discriminate.
  all: exfalso.
  all: repeat match goal with
       | H : is_Some None |- _ => destruct H; discriminate
       | H : _ /\ _ |- _ => destruct H
       | H : <[_:=_]> _ !! _ = None |- _ =>
           rewrite lookup_insert in H; case_decide; simplify_eq
       | H : accounts ?w !! _ = Some _, R : registry_live ?w |- _ =>
           destruct (R _ _ H); clear H
       end; simplify_eq.
  all: match goal with
       | H : is_Some (?x), E : ?x = None |- _ => rewrite E in H; now destruct H
       end.
Qed.

(** ** Inactive accounts *)

(** C2, as stated, fails: on an inactive [PayrollAccount], [deposit] does
    not return [False]; it raises [NotImplementedError]. *)
Lemma inactive_payroll_deposit_raises :
  let w := snd (run (let* acc := create_account "payroll" "Pat" 100 in
                     BankAccount_deactivate_account acc) fresh_world) in
  is_active <$> heap w !! 1%positive = Some false /\
  fst (run (deposit 1%positive 10) w) =
    Raise (NotImplementedError "Deposits are not allowed for Payroll Accounts.") /\
  fst (run (deposit 1%positive 10) w) <> Return false /\
  fst (run deposit_on_inactive_payroll fresh_world) <> Return false.
Proof. vm_compute. repeat split; discriminate. Qed.

(** C2, amended: on an inactive account [withdraw] returns [False] for
    every class; [deposit] and [transfer] return [False] for
    [DebitAccount] and [CreditAccount] and raise [NotImplementedError] for
    [PayrollAccount]; in every case no account and no registry entry
    changes. *)
Theorem inactive_account_rejects (w : world) (self target : loc)
    (a : BankAccount) (amount : Q) :
  heap w !! self = Some a ->
  is_active a = false ->
  (fst (run (withdraw self amount) w) = Return false /\
   same_state w (snd (run (withdraw self amount) w))) /\
  (cls a <> PayrollAccount ->
   fst (run (deposit self amount) w) = Return false /\
   same_state w (snd (run (deposit self amount) w)) /\
   fst (run (transfer self target amount) w) = Return false /\
   same_state w (snd (run (transfer self target amount) w))) /\
  (cls a = PayrollAccount ->
   (exists msg, fst (run (deposit self amount) w) = Raise (NotImplementedError msg)) /\
   snd (run (deposit self amount) w) = w /\
   (exists msg, fst (run (transfer self target amount) w) = Raise (NotImplementedError msg)) /\
   snd (run (transfer self target amount) w) = w).
Proof.
  intros Hself Hina. unfold same_state.
  repeat split; try intros Hcls; exec; try congruence; eauto.
  all: exfalso; rewrite Hina in *; discriminate.
Qed.

Lemma inactive_account_rejects_witness :
  fst (run (withdraw 1%positive 10)
         (snd (run (BankAccount_deactivate_account 1%positive) two_accounts))) =
    Return false.
Proof.
  eapply (inactive_account_rejects _ 1%positive 2%positive _ 10).
  - vm_compute. reflexivity.
  - reflexivity.
Defined.

(** ** [transfer_funds] *)

(** C5: with an account number the registry does not hold,
    [transfer_funds] returns [False] and changes no account and no
    registry entry; with both present it is the call of [transfer] on the
    source object with the target object, result and effect alike. *)
Theorem transfer_funds_delegates (w : world) (from_account to_account : string)
    (amount : Q) :
  (accounts w !! from_account = None \/ accounts w !! to_account = None ->
   fst (run (transfer_funds from_account to_account amount) w) = Return false /\
   same_state w (snd (run (transfer_funds from_account to_account amount) w))) /\
  (forall f t,
     accounts w !! from_account = Some f ->
     accounts w !! to_account = Some t ->
     run (transfer_funds from_account to_account amount) w =
     run (transfer f t amount) w).
Proof.
  split.
  - intros Habs. unfold run, transfer_funds, bind, get_accounts, same_state.
    simpl. destruct Habs as [-> | ->].
    + now simpl.
    + now destruct (accounts w !! from_account).
  - intros f t Hf Ht. unfold run, transfer_funds, bind, get_accounts. simpl.
    now rewrite Hf, Ht.
Qed.

Lemma transfer_funds_delegates_witness :
  fst (run (transfer_funds "ACC0001" "ACC0009" 50) two_accounts) = Return false /\
  run (transfer_funds "ACC0001" "ACC0002" 50) two_accounts =
  run (transfer 1%positive 2%positive 50) two_accounts.
Proof.
  destruct (transfer_funds_delegates two_accounts "ACC0001" "ACC0009" 50)
    as [Habsent _].
  destruct (transfer_funds_delegates two_accounts "ACC0001" "ACC0002" 50)
    as [_ Hpresent].
  split.
  - apply Habsent. right. vm_compute. reflexivity.
  - apply Hpresent; vm_compute; reflexivity.
Defined.

(** ** Account numbers *)

Lemma of_uint_leading_zero d : Nat.of_uint (Decimal.D0 d) = Nat.of_uint d.
Proof. reflexivity. Qed.

Lemma parse_decimal_zeros k s : parse_decimal (zeros k ++ s) = parse_decimal s.
Proof.
  induction k as [|k IH]; [reflexivity|].
  rewrite <- IH. unfold parse_decimal.
  change (zeros (S k) ++ s) with (String "0"%char (zeros k ++ s)).
  change (NilEmpty.uint_of_string (String "0"%char (zeros k ++ s)))
    with (uint_of_char "0"%char (NilEmpty.uint_of_string (zeros k ++ s))).
  destruct (NilEmpty.uint_of_string (zeros k ++ s)) as [d|]; [|reflexivity].
  cbn [uint_of_char option_map]. now rewrite of_uint_leading_zero.
Qed.

Lemma parse_decimal_format_04 n : parse_decimal (format_04 n) = Some n.
Proof.
  unfold format_04. rewrite parse_decimal_zeros. unfold parse_decimal.
  rewrite NilEmpty.usu. simpl. f_equal. apply DecimalNat.Unsigned.of_to.
Qed.

Lemma format_04_inj n m : format_04 n = format_04 m -> n = m.
Proof.
  intros H. apply (f_equal parse_decimal) in H.
  rewrite !parse_decimal_format_04 in H. congruence.
Qed.

Lemma account_number_of_inj n m :
  account_number_of n = account_number_of m -> n = m.
Proof. unfold account_number_of. intros [= H]. now apply format_04_inj. Qed.

(** ** [create_account] *)

Lemma create_account_run account_type owner initial_balance w :
  run (create_account account_type owner initial_balance) w =
  match class_of_type account_type with
  | Some c =>
      let l := fresh (dom (heap w)) in
      let k := account_number_of (size (accounts w) + 1) in
      (Return l,
       World (<[l:=BankAccount_init k owner initial_balance c]> (heap w))
             (<[k:=l]> (accounts w)) (stdout w))
  | None => (Raise (ValueError "Invalid account type."), w)
  end.
Proof.
  unfold class_of_type, account_number_of. unfold_methods. simpl.
  repeat case_step; reflexivity.
Qed.

Lemma fresh_reference_unused (w : world) : heap w !! fresh (dom (heap w)) = None.
Proof. apply not_elem_of_dom, is_fresh. Qed.

Lemma numbered_next_free w :
  numbered w -> accounts w !! account_number_of (size (accounts w) + 1) = None.
Proof.
  intros Hn. destruct (accounts w !! _) eqn:E; [|reflexivity].
  destruct (proj1 (Hn _) (mk_is_Some _ _ E)) as (k & Hk & Heq).
  apply account_number_of_inj in Heq. lia.
Qed.

Lemma numbered_fresh_world : numbered fresh_world.
Proof.
  intros s. simpl. rewrite lookup_empty, map_size_empty. split.
  - intros [x Hx]. discriminate.
  - intros (k & Hk & _). lia.
Qed.

Lemma numbered_insert w l h out :
  numbered w ->
  numbered (World h
              (<[account_number_of (size (accounts w) + 1):=l]> (accounts w))
              out).
Proof.
  intros Hn s. simpl.
  rewrite map_size_insert_None by now apply numbered_next_free.
  rewrite lookup_insert. case_decide as Hs.
  - subst s. split; [|eauto]. intros _. exists (size (accounts w) + 1).
    split; [lia | reflexivity].
  - rewrite (Hn s). split; intros (k & Hk & ->).
    + exists k. split; [lia | reflexivity].
    + exists k. split; [|reflexivity].
      destruct (decide (k = S (size (accounts w)))) as [->|]; [|lia].
      exfalso. apply Hs. f_equal. lia.
Qed.

Lemma create_all_spec requests : forall w0 ls w,
  numbered w0 ->
  run (create_all requests) w0 = (Return ls, w) ->
  numbered w /\
  size (accounts w) = size (accounts w0) + length requests /\
  length ls = length requests /\
  (forall l a, heap w0 !! l = Some a -> heap w !! l = Some a) /\
  (forall k l, accounts w0 !! k = Some l -> accounts w !! k = Some l) /\
  (forall i l, ls !! i = Some l ->
     exists a, heap w !! l = Some a /\
       account_number a = account_number_of (size (accounts w0) + S i) /\
       accounts w !! account_number_of (size (accounts w0) + S i) = Some l).
Proof.
  induction requests as [|[[account_type owner] initial_balance] requests IH];
    intros w0 ls w Hn Hrun.
  - injection Hrun as <- <-. split_and!; auto; try lia.
    intros i l Hl. discriminate.
  - unfold run in Hrun. simpl in Hrun. unfold bind in Hrun.
    pose proof (create_account_run account_type owner initial_balance w0) as Hc.
    unfold run in Hc. rewrite Hc in Hrun. clear Hc.
    destruct (class_of_type account_type) as [c|]; [|discriminate].
    simpl in Hrun.
    set (l0 := fresh (dom (heap w0))) in *.
    set (k0 := account_number_of (size (accounts w0) + 1)) in *.
    set (w1 := World _ _ _) in Hrun.
    destruct (create_all requests w1) as [[ls'|e|] w2] eqn:Hrest;
      try discriminate.
    injection Hrun as <- <-.
    assert (Hn1 : numbered w1) by (apply numbered_insert, Hn).
    assert (Hfree : accounts w0 !! k0 = None) by now apply numbered_next_free.
    assert (Hsize : size (accounts w1) = S (size (accounts w0)))
      by (simpl; now rewrite map_size_insert_None).
    destruct (IH w1 ls' w2 Hn1 Hrest) as (Hn2 & Hsz & Hlen & Hheap & Hacc & Hnth).
    split_and!.
    + exact Hn2.
    + rewrite Hsz, Hsize. simpl. lia.
    + simpl. now rewrite Hlen.
    + intros l a Hl. apply Hheap. simpl. rewrite lookup_insert_ne; [exact Hl|].
      intros <-. unfold l0 in Hl. now rewrite fresh_reference_unused in Hl.
    + intros k l Hk. apply Hacc. simpl. rewrite lookup_insert_ne; [exact Hk|].
      intros <-. congruence.
    + intros [|i] l Hl.
      * injection Hl as <-. eexists. split; [|split].
        -- apply Hheap. simpl. apply lookup_insert_eq.
        -- reflexivity.
        -- apply Hacc. simpl. apply lookup_insert_eq.
      * simpl in Hl. destruct (Hnth i l Hl) as (a & Ha & Hnum & Hkey).
        rewrite Hsize in Hnum, Hkey.
        replace (size (accounts w0) + S (S i)) with (S (size (accounts w0)) + S i)
          by lia.
        eauto.
Qed.

Lemma length_zeros_append k s :
  String.length (zeros k ++ s) = k + String.length s.
Proof. induction k as [|k IH]; simpl; [reflexivity | now rewrite IH]. Qed.

Lemma format_04_width n : 4 <= String.length (format_04 n).
Proof. unfold format_04. rewrite length_zeros_append. lia. Qed.

(** C4: after a run of successful [create_account] calls on a fresh
    registry, the n-th account created (counting from one) carries the
    number ACC followed by n in decimal, filled with zeros to four digits,
    and is the registry's entry under that number; distinct n give
    distinct numbers, so the registry has one key per call. *)
Theorem account_numbers_sequential (requests : list (string * string * Q))
    (ls : list loc) (w : world) :
  run (create_all requests) fresh_world = (Return ls, w) ->
  length ls = length requests /\
  size (accounts w) = length requests /\
  (forall n l, ls !! n = Some l ->
     exists a, heap w !! l = Some a /\
       account_number a = "ACC" ++ format_04 (S n) /\
       accounts w !! ("ACC" ++ format_04 (S n)) = Some l) /\
  (forall n, parse_decimal (format_04 n) = Some n /\
             4 <= String.length (format_04 n)) /\
  (forall n m, "ACC" ++ format_04 n = "ACC" ++ format_04 m -> n = m) /\
  "ACC" ++ format_04 1 = "ACC0001" /\
  "ACC" ++ format_04 23 = "ACC0023".
Proof.
  intros Hrun.
  destruct (create_all_spec requests fresh_world ls w numbered_fresh_world Hrun)
    as (_ & Hsz & Hlen & _ & _ & Hnth).
  split_and!; try reflexivity.
  - exact Hlen.
  - rewrite Hsz. simpl. now rewrite map_size_empty.
  - intros n l Hl. destruct (Hnth n l Hl) as (a & Ha & Hnum & Hkey).
    simpl in Hnum, Hkey. rewrite map_size_empty in Hnum, Hkey. eauto.
  - intros n. split; [apply parse_decimal_format_04 | apply format_04_width].
  - apply account_number_of_inj.
Qed.

Lemma account_numbers_sequential_witness :
  exists ls w,
    run (create_all example_requests) fresh_world = (Return ls, w) /\
    size (accounts w) = 3.
Proof.
  eassert (E : run (create_all example_requests) fresh_world = (Return _, _))
    by (vm_compute; reflexivity).
  eexists _, _. split; [exact E|].
  exact (proj1 (proj2 (account_numbers_sequential _ _ _ E))).
Defined.

(** The run succeeds whenever every requested type is one of the three. *)
Lemma create_all_succeeds requests : forall w0,
  Forall (fun r => is_Some (class_of_type (fst (fst r)))) requests ->
  exists ls w, run (create_all requests) w0 = (Return ls, w).
Proof.
  induction requests as [|[[account_type owner] initial_balance] requests IH];
    intros w0 Hok.
  - eexists _, _. reflexivity.
  - inversion Hok as [|? ? [c Hc] Hrest]; subst. simpl in Hc.
    unfold run. simpl. unfold bind.
    pose proof (create_account_run account_type owner initial_balance w0) as Hr.
    unfold run in Hr. rewrite Hr, Hc. simpl.
    match goal with
    | |- context [create_all requests ?w1] =>
        destruct (IH w1 Hrest) as (ls & w & Hrun)
    end.
    unfold run in Hrun. rewrite Hrun. eexists _, _. reflexivity.
Qed.

(** ** The period update of a [DebitAccount] *)

(** C6: the period update of an active [DebitAccount] multiplies the
    balance by [1 + interest_rate] and then deactivates the account exactly
    when the new balance is below [required_balance]; an inactive one is
    left alone.  With balance 50, rate 0.01 and required balance 100 the
    result is 50.5 and inactive. *)
Theorem debit_period_update (w : world) (self : loc) (a : BankAccount)
    (interest_rate required_balance : Q) :
  heap w !! self = Some a ->
  cls a = DebitAccount interest_rate required_balance ->
  (is_active a = true ->
   let b' := (balance a * (1 + interest_rate))%Q in
   run (apply_monthly_changes self) w =
     (Return tt,
      World (<[self:=mkAccount (account_number a) (owner a) b'
                       (negb (Qltb b' required_balance)) (cls a)]> (heap w))
            (accounts w) (stdout w)) /\
   (negb (Qltb b' required_balance) = false <-> (b' < required_balance)%Q)) /\
  (is_active a = false -> run (apply_monthly_changes self) w = (Return tt, w)) /\
  (balance a = 50%Q -> interest_rate = 0.01%Q -> required_balance = 100%Q ->
   is_active a = true ->
   exists a', heap (snd (run (apply_monthly_changes self) w)) !! self = Some a' /\
              (balance a' == 50.5)%Q /\ is_active a' = false).
Proof.
  intros Hself Hcls.
  assert (Hact : is_active a = true ->
    run (apply_monthly_changes self) w =
     (Return tt,
      World (<[self:=mkAccount (account_number a) (owner a)
                       (balance a * (1 + interest_rate))
                       (negb (Qltb (balance a * (1 + interest_rate)) required_balance))
                       (cls a)]> (heap w))
            (accounts w) (stdout w))).
  { intros Hon. unfold_methods. simpl. rewrite Hself, Hcls. simpl.
    rewrite Hself, Hcls, Hon. simpl. rewrite lookup_insert_eq. simpl.
    destruct (Qltb _ _); simpl.
    - rewrite lookup_insert_eq. simpl. rewrite insert_insert_eq.
      unfold set_is_active, set_balance. simpl. now rewrite Hcls.
    - unfold set_balance. now rewrite Hon, Hcls. }
  split_and!.
  - intros Hon. split; [now apply Hact|].
    rewrite negb_false_iff. unfold Qltb. apply Qgtb_true.
  - intros Hoff. unfold_methods. simpl. rewrite Hself, Hcls. simpl.
    now rewrite Hself, Hcls, Hoff.
  - intros Hb -> -> Hon. rewrite (Hact Hon). simpl. rewrite lookup_insert_eq.
    eexists. split; [reflexivity|]. simpl. rewrite Hb. split; reflexivity.
Qed.

Lemma debit_period_update_witness :
  exists a',
    heap (snd (run (apply_monthly_changes 1%positive)
                 (World {[1%positive := mkAccount "ACC0001" "Dana" 50 true
                                          (DebitAccount 0.01 100)]} ∅ [])))
      !! 1%positive = Some a' /\
    (balance a' == 50.5)%Q /\ is_active a' = false.
Proof.
  eapply (debit_period_update _ 1%positive _ 0.01 100); try reflexivity.
Defined.

(** ** Transfers out of a [DebitAccount] *)

(** A successful transfer writes the [balance] attribute of the target
    object, whatever its class: the subclass attributes of the target, the
    [credit_balance] of a [CreditAccount] among them, stay as they are. *)
Lemma debit_transfer_effect (w : world) (self target : loc) (a t : BankAccount)
    (amount : Q) :
  heap w !! self = Some a ->
  heap w !! target = Some t ->
  self <> target ->
  (exists r m, cls a = DebitAccount r m) ->
  is_active a = true ->
  (amount <= balance a)%Q ->
  run (transfer self target amount) w =
    (Return true,
     World (<[target:=set_balance t (balance t + amount)]>
              (<[self:=set_balance a (balance a - amount)]> (heap w)))
           (accounts w) (stdout w)).
Proof.
  intros Hself Htarget Hne (r & m & Hcls) Hon Hle.
  apply Qgtb_false in Hle.
  unfold_methods. simpl. rewrite Hself, Hcls. simpl.
  rewrite Hself, Hon, Hle. simpl.
  now rewrite lookup_insert_ne, Htarget.
Qed.

(** C7: in the registry scenario [transfer_funds] returns [True], Alice's
    balance is 150, and the 50 arrive in the [balance] attribute of Bob's
    credit account, whose [credit_balance] stays 0. *)
Theorem registry_scenario_result :
  exists alice bob w a b,
    run registry_scenario fresh_world = (Return (true, alice, bob), w) /\
    heap w !! alice = Some a /\
    account_number a = "ACC0001" /\ owner a = "Alice" /\
    (balance a == 150)%Q /\
    heap w !! bob = Some b /\
    account_number b = "ACC0002" /\ owner b = "Bob" /\
    (balance b == 0 + 50)%Q /\
    cls b = CreditAccount 500 0 0.02.
Proof.
  eassert (E : run registry_scenario fresh_world = (Return (_, _, _), _))
    by (vm_compute; reflexivity).
  eexists _, _, _, _, _. split; [exact E|].
  split; [vm_compute; reflexivity|].
  split; [reflexivity|]. split; [reflexivity|]. split; [reflexivity|].
  split; [vm_compute; reflexivity|].
  repeat split.
Qed.

(** ** The [is_active] flag *)

Ltac lookup_cases :=
  repeat match goal with
         | H : context [<[_:=_]> _ !! _] |- _ =>
             rewrite lookup_insert in H; case_decide; simplify_eq/=
         end.

Lemma is_active_set_credit_balance a v :
  is_active (set_credit_balance a v) = is_active a.
Proof. unfold set_credit_balance. now destruct (cls a). Qed.

Lemma balance_set_credit_balance a v :
  balance (set_credit_balance a v) = balance a.
Proof. unfold set_credit_balance. now destruct (cls a). Qed.

Lemma apply_monthly_changes_frame l l' w :
  l <> l' ->
  heap (snd (apply_monthly_changes l' w)) !! l = heap w !! l.
Proof.
  intros Hne. exec; try reflexivity.
  all: now rewrite ?lookup_insert_ne by congruence.
Qed.

Lemma apply_monthly_changes_active_or_below l' w l a :
  heap w !! l = Some a -> active_or_below a ->
  exists a', heap (snd (apply_monthly_changes l' w)) !! l = Some a' /\
             active_or_below a'.
Proof.
  intros Hl Ha. destruct (decide (l = l')) as [<-|Hne].
  2: { rewrite apply_monthly_changes_frame by exact Hne. eauto. }
  exec; eauto.
  all: rewrite ?lookup_insert_eq in *; simplify_eq/=.
  all: rewrite ?lookup_insert_eq; eexists; split; [reflexivity|].
  all: try (left; simpl; congruence).
  - right. do 2 eexists. simpl. split; [eassumption|].
    now apply Qgtb_true.
  - destruct Ha as [Ha | (r & m & Hc & _)]; [|congruence].
    left. unfold set_credit_balance.
    match goal with E : cls a = CreditAccount _ _ _ |- _ => rewrite E end.
    exact Ha.
Qed.

(** A property of single accounts that every period update keeps is kept
    by the loop of [monthly_update]. *)
Section MonthlyLoop.
Variable P : BankAccount -> Prop.
Hypothesis P_step : forall l' w l a,
  heap w !! l = Some a -> P a ->
  exists a', heap (snd (apply_monthly_changes l' w)) !! l = Some a' /\ P a'.

Lemma monthly_loop_invariant ls : forall w l a,
  heap w !! l = Some a -> P a ->
  exists a', heap (snd (for_each apply_monthly_changes ls w)) !! l = Some a' /\
             P a'.
Proof.
  induction ls as [|l' ls IH]; intros w l a Hl Ha; simpl; [eauto|].
  unfold bind.
  destruct (P_step l' w l a Hl Ha) as (a1 & Hl1 & Ha1).
  destruct (apply_monthly_changes l' w) as [[[]|e|] w1]; simpl in *; eauto.
Qed.

Lemma monthly_update_invariant w l a :
  heap w !! l = Some a -> P a ->
  exists a', heap (snd (monthly_update w)) !! l = Some a' /\ P a'.
Proof.
  intros Hl Ha. unfold monthly_update, bind, get_accounts.
  now apply (monthly_loop_invariant _ w l a).
Qed.
End MonthlyLoop.

Lemma monthly_loop_frame ls : forall w l,
  l ∉ ls ->
  heap (snd (for_each apply_monthly_changes ls w)) !! l = heap w !! l.
Proof.
  induction ls as [|l' ls IH]; intros w l Hl; simpl; [reflexivity|].
  apply not_elem_of_cons in Hl as [Hne Hl]. unfold bind.
  pose proof (apply_monthly_changes_frame l l' w Hne) as Hf.
  destruct (apply_monthly_changes l' w) as [[[]|e|] w1]; simpl in *;
    try exact Hf.
  now rewrite IH.
Qed.

(** C8: [create_account] returns, for each of the three types, an active
    account; and an active account is inactive after a call only if the
    call deactivates it, directly or through the registry, or is a period
    update that leaves it a [DebitAccount] below its required balance. *)
Theorem accounts_start_active :
  (forall account_type holder initial_balance w,
     account_type = "payroll" \/ account_type = "debit" \/
     account_type = "credit" ->
     exists l w' a,
       run (create_account account_type holder initial_balance) w = (Return l, w') /\
       heap w' !! l = Some a /\ is_active a = true /\
       owner a = holder /\ balance a = initial_balance) /\
  (forall c w l a a',
     heap w !! l = Some a -> is_active a = true ->
     heap (snd (perform c w)) !! l = Some a' -> is_active a' = false ->
     c = DeactivateAccount l \/
     (exists k, c = SysDeactivateAccount k /\ accounts w !! k = Some l) \/
     ((c = ApplyMonthlyChanges l \/
       (c = SysMonthlyUpdate /\ exists k, accounts w !! k = Some l)) /\
      exists r m, cls a' = DebitAccount r m /\ (balance a' < m)%Q)).
Proof.
  split.
  - intros account_type holder initial_balance w Htype.
    rewrite create_account_run.
    assert (Hc : is_Some (class_of_type account_type))
      by (destruct Htype as [-> | [-> | ->]]; eexists; reflexivity).
    destruct Hc as [c ->]. simpl. eexists _, _, _. split; [reflexivity|].
    simpl. rewrite lookup_insert_eq. repeat split.
  - intros c w l a a' Hl Hon Hl' Hoff.
    destruct c.
    9: { right. right.
         unfold perform, monthly_update, bind, get_accounts in Hl'.
         simpl in Hl'.
         set (ls := map snd (map_to_list (accounts w))) in *.
         assert (Hl'' : heap (snd (for_each apply_monthly_changes ls w)) !! l
                        = Some a')
           by (destruct (for_each apply_monthly_changes ls w) as [[[]|e|] w'];
               exact Hl').
         clear Hl'. split.
         - right. split; [reflexivity|].
           destruct (decide (l ∈ ls)) as [Hin|Hout].
           + apply list_elem_of_fmap in Hin as [[k l0] [-> Hk]].
             apply elem_of_map_to_list in Hk. eauto.
           + rewrite monthly_loop_frame in Hl'' by exact Hout. congruence.
         - destruct (monthly_loop_invariant active_or_below
                       apply_monthly_changes_active_or_below ls w l a Hl
                       (or_introl Hon))
             as (a1 & Ha1 & [Hact | Hbelow]); [congruence|].
           replace a' with a1 by congruence. exact Hbelow. }
    all: revert Hl' Hoff; exec; intros Hl' Hoff; lookup_cases;
      rewrite ?is_active_set_credit_balance in *;
      try congruence; eauto.
    right. right. split; [now left|]. do 2 eexists. split; [eassumption|].
    now apply Qgtb_true.
Qed.

Lemma accounts_start_active_witness :
  (exists l w' a,
     run (create_account "credit" "Bob" 25) fresh_world = (Return l, w') /\
     heap w' !! l = Some a /\ is_active a = true /\
     owner a = "Bob" /\ balance a = 25%Q) /\
  (DeactivateAccount 1%positive = DeactivateAccount 1%positive \/
   (exists k, DeactivateAccount 1%positive = SysDeactivateAccount k /\
              accounts two_accounts !! k = Some 1%positive) \/
   ((DeactivateAccount 1%positive = ApplyMonthlyChanges 1%positive \/
     (DeactivateAccount 1%positive = SysMonthlyUpdate /\
      exists k, accounts two_accounts !! k = Some 1%positive)) /\
    exists r m,
      cls (mkAccount "ACC0001" "Alice" 200 false (DebitAccount 0.01 100))
        = DebitAccount r m /\
      (balance (mkAccount "ACC0001" "Alice" 200 false (DebitAccount 0.01 100))
         < m)%Q)).
Proof.
  split.
  - apply (proj1 accounts_start_active "credit" "Bob" 25%Q fresh_world).
    right. right. reflexivity.
  - apply (proj2 accounts_start_active (DeactivateAccount 1%positive)
             two_accounts 1%positive
             (mkAccount "ACC0001" "Alice" 200 true (DebitAccount 0.01 100))
             (mkAccount "ACC0001" "Alice" 200 false (DebitAccount 0.01 100))).
    + vm_compute. reflexivity.
    + reflexivity.
    + vm_compute. reflexivity.
    + reflexivity.
Defined.

(** ** The amount owed on a [CreditAccount] *)

(** C1, as stated, fails.  Drawn up to its limit of 500, an account owes
    510 after one period update, more than the limit; and drawing -10 on a
    new account leaves it owing -10. *)
Lemma credit_invariant_broken :
  (exists l w a cb,
     run credit_at_limit_then_interest fresh_world = (Return l, w) /\
     heap w !! l = Some a /\
     cls a = CreditAccount 500 cb 0.02 /\
     (cb == 510)%Q /\ ~ (cb <= 500)%Q /\ ~ credit_inv a) /\
  (exists l w a,
     run credit_negative_withdrawal fresh_world = (Return l, w) /\
     heap w !! l = Some a /\
     cls a = CreditAccount 500 (0 + -10) 0.02 /\
     ~ (0 <= 0 + -10)%Q /\ ~ credit_inv a).
Proof.
  split.
  - eassert (E : run credit_at_limit_then_interest fresh_world = (Return _, _))
      by (vm_compute; reflexivity).
    eexists _, _, _, _. split; [exact E|].
    split; [vm_compute; reflexivity|].
    split; [reflexivity|]. split; [reflexivity|].
    split; [intros H | intros [_ H]]; vm_compute in H; now apply H.
  - eassert (E : run credit_negative_withdrawal fresh_world = (Return _, _))
      by (vm_compute; reflexivity).
    eexists _, _, _. split; [exact E|].
    split; [vm_compute; reflexivity|].
    split; [reflexivity|].
    split; [intros H | intros [H _]]; vm_compute in H; now apply H.
Qed.

Ltac Qcmp_hyps :=
  repeat match goal with
         | H : Qgtb _ _ = true |- _ => apply Qgtb_true in H
         | H : Qgtb _ _ = false |- _ => apply Qgtb_false in H
         end.

Ltac lookup_goal :=
  repeat (rewrite lookup_insert; case_decide; simplify_eq/=).

Ltac credit_fields :=
  unfold credit_inv, credit_nonneg, credit_limit_of, set_credit_balance,
    set_balance, set_is_active, BankAccount_init in *; simpl in *;
  repeat match goal with
         | E : cls ?a = _ |- _ => rewrite E in *; clear E
         end; simpl in *.

Lemma apply_monthly_changes_credit_nonneg l' w l a :
  heap w !! l = Some a -> credit_nonneg a ->
  exists a', heap (snd (apply_monthly_changes l' w)) !! l = Some a' /\
             credit_nonneg a'.
Proof.
  intros Hl Ha. exec; lookup_cases; lookup_goal; eauto.
  all: eexists; split; [reflexivity|]; Qcmp_hyps; credit_fields; try tauto.
  destruct Ha as [Hcb Hr]. split; [|exact Hr].
  apply Qmult_le_0_compat; assumption.
Qed.

(** C1, amended: a new credit account owes 0, within its limit.  Calls
    other than period updates, with non-negative amounts, keep
    [0 <= credit_balance <= credit_limit] on every credit account and never
    change its limit.  A period update of an active account that owes a
    positive amount multiplies the amount owed by [1 + interest_rate]; with
    a rate of at least -1 every call with a non-negative amount keeps
    [0 <= credit_balance]. *)
Theorem credit_invariant_amended :
  (forall owner initial_balance w,
     exists l w' a,
       run (create_account "credit" owner initial_balance) w = (Return l, w') /\
       heap w' !! l = Some a /\
       cls a = CreditAccount 500 0 0.02 /\ credit_inv a) /\
  (forall c w l a,
     heap w !! l = Some a -> credit_inv a ->
     nonneg_amount c -> ~ is_period_update c ->
     exists a', heap (snd (perform c w)) !! l = Some a' /\
                credit_inv a' /\ credit_limit_of a' = credit_limit_of a) /\
  (forall c w l a,
     heap w !! l = Some a -> credit_nonneg a -> nonneg_amount c ->
     exists a', heap (snd (perform c w)) !! l = Some a' /\ credit_nonneg a') /\
  (forall w l a credit_limit credit_balance interest_rate,
     heap w !! l = Some a ->
     cls a = CreditAccount credit_limit credit_balance interest_rate ->
     is_active a = true -> (0 < credit_balance)%Q ->
     run (apply_monthly_changes l) w =
       (Return tt,
        World (<[l:=set_credit_balance a (credit_balance * (1 + interest_rate))]>
                 (heap w)) (accounts w) (stdout w))).
Proof.
  split_and!.
  - intros owner initial_balance w. rewrite create_account_run. simpl.
    eexists _, _, _. split; [reflexivity|]. simpl. rewrite lookup_insert_eq.
    split; [reflexivity|]. split; [reflexivity|].
    unfold credit_inv. simpl. split; [apply Qle_refl | discriminate].
  - intros c w l a Hl Hinv Hamount Hnp.
    destruct c; simpl in Hamount, Hnp; try tauto.
    all: exec; lookup_cases; lookup_goal; eauto.
    all: try (exfalso; pose proof (fresh_reference_unused w); congruence).
    all: eexists; split; [reflexivity|]; Qcmp_hyps; credit_fields;
      try tauto.
    all: destruct Hinv as [Hlo Hhi]; split; [|reflexivity].
    all: first [ split; lra
               | split; [apply py_max_0_nonneg | apply py_max_0_le; lra] ].
  - intros c w l a Hl Hinv Hamount.
    destruct c; simpl in Hamount.
    9: { unfold perform, bind.
         destruct (monthly_update_invariant credit_nonneg
                     apply_monthly_changes_credit_nonneg w l a Hl Hinv)
           as (a' & Hl' & Ha').
         destruct (monthly_update w) as [[[]|e|] w']; simpl in *; eauto. }
    4: { unfold perform, bind.
         destruct (apply_monthly_changes_credit_nonneg self w l a Hl Hinv)
           as (a' & Hl' & Ha').
         destruct (apply_monthly_changes self w) as [[[]|e|] w']; simpl in *;
           eauto. }
    all: exec; lookup_cases; lookup_goal; eauto.
    all: try (exfalso; pose proof (fresh_reference_unused w); congruence).
    all: eexists; split; [reflexivity|]; Qcmp_hyps; credit_fields;
      try tauto.
    all: destruct Hinv as [Hlo Hhi]; split; [|exact Hhi].
    all: first [ lra | apply py_max_0_nonneg ].
  - intros w l a credit_limit credit_balance interest_rate Hl Hcls Hon Hpos.
    apply Qgtb_true in Hpos.
    unfold_methods. simpl. rewrite Hl, Hcls. simpl.
    now rewrite Hl, Hcls, Hon, Hpos.
Qed.

Lemma credit_invariant_amended_witness :
  exists a', heap (snd (perform (Withdraw 2%positive 100) two_accounts))
               !! 2%positive = Some a' /\
             credit_inv a' /\
             credit_limit_of a' = Some 500%Q.
Proof.
  destruct credit_invariant_amended as (_ & Hkeep & _).
  apply (Hkeep (Withdraw 2%positive 100) two_accounts 2%positive
           (mkAccount "ACC0002" "Bob" 0 true (CreditAccount 500 0 0.02))).
  - vm_compute. reflexivity.
  - split; discriminate.
  - discriminate.
  - intros [].
Defined.

(** C9: a credit account created with any initial balance owes 0 and holds
    the initial balance in [balance]; and whatever stands in [balance], the
    methods of the account return the same and leave the same amount
    owed. *)
Theorem credit_account_opens_at_zero :
  (forall owner initial_balance w,
     exists l w',
       run (create_account "credit" owner initial_balance) w = (Return l, w') /\
       heap w' !! l =
         Some (mkAccount (account_number_of (size (accounts w) + 1)) owner
                 initial_balance true (CreditAccount 500 0 0.02)) /\
       owed w' l = Some 0%Q) /\
  (forall w l a credit_limit credit_balance interest_rate v amount target,
     heap w !! l = Some a ->
     cls a = CreditAccount credit_limit credit_balance interest_rate ->
     let w2 := with_balance w l v in
     (fst (run (withdraw l amount) w2) = fst (run (withdraw l amount) w) /\
      owed (snd (run (withdraw l amount) w2)) l =
      owed (snd (run (withdraw l amount) w)) l) /\
     (fst (run (deposit l amount) w2) = fst (run (deposit l amount) w) /\
      owed (snd (run (deposit l amount) w2)) l =
      owed (snd (run (deposit l amount) w)) l) /\
     (fst (run (transfer l target amount) w2) =
      fst (run (transfer l target amount) w) /\
      owed (snd (run (transfer l target amount) w2)) l =
      owed (snd (run (transfer l target amount) w)) l) /\
     (fst (run (apply_monthly_changes l) w2) =
      fst (run (apply_monthly_changes l) w) /\
      owed (snd (run (apply_monthly_changes l) w2)) l =
      owed (snd (run (apply_monthly_changes l) w)) l)).
Proof.
  split.
  - intros owner initial_balance w. rewrite create_account_run. simpl.
    eexists _, _. split; [reflexivity|]. unfold owed. simpl.
    rewrite lookup_insert_eq. split; reflexivity.
  - intros w l a credit_limit credit_balance interest_rate v amount target
      Hl Hcls w2. subst w2. unfold with_balance, owed.
    assert (Hl2 : alter (fun a => set_balance a v) l (heap w) !! l
                  = Some (set_balance a v))
      by (now rewrite lookup_alter_eq, Hl).
    assert (Hcls2 : cls (set_balance a v)
                    = CreditAccount credit_limit credit_balance interest_rate)
      by exact Hcls.
    assert (Hon2 : is_active (set_balance a v) = is_active a) by reflexivity.
    split_and!.
    all: unfold_methods; simpl; rewrite ?Hl2, ?Hl; simpl;
      rewrite ?Hcls2, ?Hcls; simpl; rewrite ?Hl2, ?Hl; simpl;
      rewrite ?Hcls2, ?Hcls, ?Hon2; simpl.
    all: destruct (is_active a); simpl;
      repeat match goal with
             | |- context [if ?b then _ else _] => destruct b; simpl
             end.
    all: try destruct (decide (target = l)) as [->|Hne].
    all: lookup_goal; rewrite ?lookup_alter_ne by congruence.
    all: try destruct (heap w !! target); simpl.
    all: lookup_goal; rewrite ?Hl2, ?Hl; simpl.
    all: unfold set_credit_balance; simpl; rewrite ?Hcls; reflexivity.
Qed.

Lemma credit_account_opens_at_zero_witness :
  fst (run (withdraw 2%positive 100) (with_balance two_accounts 2%positive 7)) =
  fst (run (withdraw 2%positive 100) two_accounts).
Proof.
  destruct credit_account_opens_at_zero as [_ Hindep].
  destruct (Hindep two_accounts 2%positive
              (mkAccount "ACC0002" "Bob" 0 true (CreditAccount 500 0 0.02))
              500%Q 0%Q 0.02%Q 7%Q 100%Q 1%positive) as ((H & _) & _).
  - vm_compute. reflexivity.
  - reflexivity.
  - exact H.
Defined.

(** ** Negative amounts *)

(** C10, as stated, fails: an active debit or payroll account whose balance
    is -100 refuses to withdraw -50, because -50 > -100. *)
Lemma negative_withdrawal_rejected :
  (exists l w a,
     run (create_account "debit" "Dana" (-100)) fresh_world = (Return l, w) /\
     heap w !! l = Some a /\ is_active a = true /\
     cls a = DebitAccount 0.01 100 /\ (-50 < 0)%Q /\
     run (withdraw l (-50)) w =
       (Return false,
        World (heap w) (accounts w) (stdout w ++ ["Insufficient balance."]))) /\
  fst (run (negative_withdrawal_when_overdrawn "debit") fresh_world) <> Return true /\
  fst (run (negative_withdrawal_when_overdrawn "payroll") fresh_world) <> Return true.
Proof.
  split; [|split; vm_compute; discriminate].
  eassert (E : run (create_account "debit" "Dana" (-100)) fresh_world
               = (Return _, _)) by (vm_compute; reflexivity).
  eexists _, _, _. split; [exact E|].
  split; [vm_compute; reflexivity|].
  repeat split.
Qed.

(** C10, amended: on an active debit or payroll account a negative amount
    that is not above the balance, as every negative amount is when the
    balance is not negative, is withdrawn: the call returns [True] and the
    balance grows by the absolute value; a negative amount above the balance
    is refused without a change.  On an active debit account a negative
    deposit returns [True] and lowers the balance by the absolute value,
    below zero when that exceeds the balance. *)
Theorem negative_amounts_accepted (w : world) (l : loc) (a : BankAccount)
    (amount : Q) :
  heap w !! l = Some a ->
  is_active a = true ->
  (amount < 0)%Q ->
  (cls a = PayrollAccount \/ exists r m, cls a = DebitAccount r m) ->
  ((amount <= balance a)%Q ->
   run (withdraw l amount) w =
     (Return true,
      World (<[l:=set_balance a (balance a - amount)]> (heap w))
            (accounts w) (stdout w)) /\
   (balance a - amount == balance a + Qabs amount)%Q) /\
  ((0 <= balance a)%Q -> fst (run (withdraw l amount) w) = Return true) /\
  ((balance a < amount)%Q ->
   fst (run (withdraw l amount) w) = Return false /\
   same_state w (snd (run (withdraw l amount) w))) /\
  ((exists r m, cls a = DebitAccount r m) ->
   run (deposit l amount) w =
     (Return true,
      World (<[l:=set_balance a (balance a + amount)]> (heap w))
            (accounts w) (stdout w)) /\
   (balance a + amount == balance a - Qabs amount)%Q /\
   ((balance a < Qabs amount)%Q -> (balance a + amount < 0)%Q)).
Proof.
  intros Hl Hon Hneg Hcls.
  assert (Habs : (Qabs amount == - amount)%Q)
    by (apply Qabs_neg; lra).
  assert (Hw : (amount <= balance a)%Q ->
    run (withdraw l amount) w =
     (Return true,
      World (<[l:=set_balance a (balance a - amount)]> (heap w))
            (accounts w) (stdout w))).
  { intros Hle. apply Qgtb_false in Hle.
    destruct Hcls as [Hc | (r & m & Hc)];
      unfold_methods; simpl; rewrite Hl, Hc; simpl;
      now rewrite Hl, Hon, Hle. }
  split_and!.
  - intros Hle. split; [now apply Hw|]. rewrite Habs. ring.
  - intros Hpos. rewrite Hw by lra. reflexivity.
  - intros Hgt. apply Qgtb_true in Hgt. unfold same_state.
    destruct Hcls as [Hc | (r & m & Hc)];
      unfold_methods; simpl; rewrite Hl, Hc; simpl;
      now rewrite Hl, Hon, Hgt.
  - intros (r & m & Hc). split_and!.
    + unfold_methods. simpl. rewrite Hl, Hc. simpl. now rewrite Hl, Hon.
    + rewrite Habs. ring.
    + rewrite Habs. lra.
Qed.

Lemma negative_amounts_accepted_witness :
  fst (run (withdraw 1%positive (-30)) two_accounts) = Return true.
Proof.
  destruct (negative_amounts_accepted two_accounts 1%positive
              (mkAccount "ACC0001" "Alice" 200 true (DebitAccount 0.01 100))
              (-30)%Q) as (_ & H & _).
  - vm_compute. reflexivity.
  - reflexivity.
  - reflexivity.
  - right. eexists _, _. reflexivity.
  - apply H. discriminate.
Defined.

(** * Further properties of the module *)

(** ** What no call changes *)

Ltac keep_fields :=
  unfold set_credit_balance, set_balance, set_is_active, fixed_attributes,
    BankAccount_init in *; simpl in *;
  repeat match goal with
         | E : cls ?a = _ |- _ => rewrite E in *; clear E
         end; simpl in *.

Lemma apply_monthly_changes_keeps_fixed l' w l a :
  heap w !! l = Some a ->
  exists a', heap (snd (apply_monthly_changes l' w)) !! l = Some a' /\
             account_number a' = account_number a /\ owner a' = owner a /\
             fixed_attributes (cls a') = fixed_attributes (cls a).
Proof.
  intros Hl. exec; lookup_cases; lookup_goal; eauto.
  all: eexists; split; [reflexivity|]; keep_fields; auto.
Qed.

Lemma perform_keeps_fixed (c : call) (w : world) (l : loc)
    (a : BankAccount) :
  heap w !! l = Some a ->
  exists a', heap (snd (perform c w)) !! l = Some a' /\
             account_number a' = account_number a /\ owner a' = owner a /\
             fixed_attributes (cls a') = fixed_attributes (cls a).
Proof.
  intros Hl. destruct c.
  9: { unfold perform, bind.
       assert (H : exists a', heap (snd (monthly_update w)) !! l = Some a' /\
                 (account_number a' = account_number a /\ owner a' = owner a /\
                  fixed_attributes (cls a') = fixed_attributes (cls a))).
       { refine (monthly_update_invariant
                   (fun a' => account_number a' = account_number a /\
                              owner a' = owner a /\
                              fixed_attributes (cls a') = fixed_attributes (cls a))
                   _ w l a Hl _); [|auto].
         intros l' w0 l0 a0 Hl0 (H1 & H2 & H3).
         destruct (apply_monthly_changes_keeps_fixed l' w0 l0 a0 Hl0)
           as (a1 & Ha1 & E1 & E2 & E3).
         exists a1. rewrite E1, E2, E3. auto. }
       destruct (monthly_update w) as [[[]|e|] w']; simpl in *; exact H. }
  all: exec; lookup_cases; lookup_goal; eauto.
  all: try (exfalso; pose proof (fresh_reference_unused w); congruence).
  all: eexists; split; [reflexivity|]; keep_fields; auto.
Qed.

(** ** [create_account] and the shape of the registry *)

Lemma class_of_type_None account_type :
  class_of_type account_type = None <->
  account_type <> "payroll" /\ account_type <> "debit" /\
  account_type <> "credit".
Proof.
  unfold class_of_type.
  destruct (String.eqb_spec account_type "payroll") as [->|H1].
  { split; [discriminate | intros (H & _); now destruct H]. }
  destruct (String.eqb_spec account_type "debit") as [->|H2].
  { split; [discriminate | intros (_ & H & _); now destruct H]. }
  destruct (String.eqb_spec account_type "credit") as [->|H3].
  { split; [discriminate | intros (_ & _ & H); now destruct H]. }
  split; auto.
Qed.

(** X2: [create_account] raises [ValueError] exactly for an account type
    other than the three it knows, and then the registry, the accounts and
    the output are as before: no account number is used up. *)
Theorem create_account_rejects_unknown_type (account_type holder : string)
    (initial_balance : Q) (w : world) :
  ((exists msg, fst (run (create_account account_type holder initial_balance) w)
                = Raise (ValueError msg)) <->
   account_type <> "payroll" /\ account_type <> "debit" /\
   account_type <> "credit") /\
  (forall e, fst (run (create_account account_type holder initial_balance) w)
             = Raise e ->
             snd (run (create_account account_type holder initial_balance) w) = w).
Proof.
  rewrite create_account_run, <- class_of_type_None.
  destruct (class_of_type account_type) as [c|]; simpl; split.
  - split; [intros [msg H]; discriminate | discriminate].
  - discriminate.
  - split; eauto.
  - reflexivity.
Qed.

Lemma create_account_rejects_unknown_type_witness :
  snd (run (create_account "savings" "Eve" 10) two_accounts) = two_accounts.
Proof.
  apply (proj2 (create_account_rejects_unknown_type "savings" "Eve" 10
                  two_accounts) (ValueError "Invalid account type.")).
  reflexivity.
Defined.

(** X3: on a registry whose keys are the account numbers of 1..len, a
    successful [create_account] adds exactly one entry, under a key that
    was free, to a new object; every earlier entry and every earlier
    object is as before. *)
Theorem create_account_adds_one_entry (account_type holder : string)
    (initial_balance : Q) (w w' : world) (l : loc) :
  numbered w ->
  run (create_account account_type holder initial_balance) w = (Return l, w') ->
  let k := account_number_of (size (accounts w) + 1) in
  heap w !! l = None /\ accounts w !! k = None /\
  accounts w' !! k = Some l /\
  size (accounts w') = S (size (accounts w)) /\
  numbered w' /\
  (forall k', k' <> k -> accounts w' !! k' = accounts w !! k') /\
  (forall l', l' <> l -> heap w' !! l' = heap w !! l') /\
  stdout w' = stdout w.
Proof.
  intros Hn Hrun k. rewrite create_account_run in Hrun.
  destruct (class_of_type account_type) as [c|]; [|discriminate].
  simpl in Hrun. injection Hrun as <- <-. simpl.
  pose proof (numbered_next_free w Hn) as Hfree. fold k in Hfree.
  split_and!.
  - apply fresh_reference_unused.
  - exact Hfree.
  - apply lookup_insert_eq.
  - now apply map_size_insert_None.
  - apply numbered_insert, Hn.
  - intros k' Hk'. now apply lookup_insert_ne.
  - intros l' Hl'. now apply lookup_insert_ne.
  - reflexivity.
Qed.

Lemma create_account_adds_one_entry_witness :
  exists l w',
    run (create_account "payroll" "Pat" 10) two_accounts = (Return l, w') /\
    accounts w' !! "ACC0003" = Some l /\ size (accounts w') = 3.
Proof.
  eassert (E : run (create_account "payroll" "Pat" 10) two_accounts
               = (Return _, _)) by (vm_compute; reflexivity).
  assert (Hn : numbered two_accounts).
  { apply (create_all_spec [("debit", "Alice", 200%Q); ("credit", "Bob", 0%Q)]
             fresh_world [1%positive; 2%positive] two_accounts
             numbered_fresh_world).
    vm_compute. reflexivity. }
  destruct (create_account_adds_one_entry _ _ _ _ _ _ Hn E)
    as (_ & _ & Hk & Hsz & _).
  eexists _, _. split; [exact E|]. split; [exact Hk | exact Hsz].
Defined.

(** ** The registry of a reachable world *)

Lemma apply_monthly_changes_keeps_absent l' w l :
  heap w !! l = None ->
  heap (snd (apply_monthly_changes l' w)) !! l = None /\
  accounts (snd (apply_monthly_changes l' w)) = accounts w.
Proof.
  intros Hl. exec; lookup_goal; auto; congruence.
Qed.

Lemma monthly_loop_keeps_absent ls : forall w l,
  heap w !! l = None ->
  heap (snd (for_each apply_monthly_changes ls w)) !! l = None.
Proof.
  induction ls as [|l' ls IH]; intros w l Hl; simpl; [exact Hl|].
  unfold bind.
  destruct (apply_monthly_changes_keeps_absent l' w l Hl) as [Hl1 _].
  destruct (apply_monthly_changes l' w) as [[[]|e|] w1]; simpl in *; auto.
Qed.

Lemma apply_monthly_changes_keeps_registry l' w :
  accounts (snd (apply_monthly_changes l' w)) = accounts w.
Proof. exec; reflexivity. Qed.

Lemma monthly_loop_keeps_registry ls : forall w,
  accounts (snd (for_each apply_monthly_changes ls w)) = accounts w.
Proof.
  induction ls as [|l' ls IH]; intros w; simpl; [reflexivity|].
  unfold bind.
  pose proof (apply_monthly_changes_keeps_registry l' w) as H1.
  destruct (apply_monthly_changes l' w) as [[[]|e|] w1]; simpl in *; auto.
  now rewrite IH.
Qed.

Lemma perform_keeps_registry (c : call) (w : world) :
  (forall account_type holder initial_balance,
     c <> SysCreateAccount account_type holder initial_balance) ->
  accounts (snd (perform c w)) = accounts w /\
  (forall l, heap w !! l = None -> heap (snd (perform c w)) !! l = None).
Proof.
  intros Hc. destruct c.
  9: { unfold perform, monthly_update, bind, get_accounts. simpl.
       pose proof (monthly_loop_keeps_registry
                     (map snd (map_to_list (accounts w))) w) as H1.
       pose proof (monthly_loop_keeps_absent
                     (map snd (map_to_list (accounts w))) w) as H2.
       destruct (for_each _ _ _) as [[[]|e|] w']; simpl in *; auto. }
  7: { now edestruct Hc. }
  all: split; [|intros l0 Hl0]; exec; lookup_cases; lookup_goal; auto;
    congruence.
Qed.

(** X1: no call of the module changes the account number, the owner, the
    class, the interest rate, the required balance or the credit limit of
    an existing account, and no call removes an object; only
    [create_account] adds an object or changes the registry. *)
Theorem fixed_attributes_never_change (c : call) (w : world) :
  (forall l a, heap w !! l = Some a ->
     exists a', heap (snd (perform c w)) !! l = Some a' /\
                account_number a' = account_number a /\ owner a' = owner a /\
                fixed_attributes (cls a') = fixed_attributes (cls a)) /\
  ((forall account_type holder initial_balance,
      c <> SysCreateAccount account_type holder initial_balance) ->
   accounts (snd (perform c w)) = accounts w /\
   (forall l, heap w !! l = None -> heap (snd (perform c w)) !! l = None)).
Proof.
  split.
  - intros l a Hl. now apply perform_keeps_fixed.
  - apply perform_keeps_registry.
Qed.

Lemma fixed_attributes_never_change_witness :
  accounts (snd (perform (Withdraw 2%positive 100) two_accounts)) =
  accounts two_accounts.
Proof.
  apply (proj2 (fixed_attributes_never_change (Withdraw 2%positive 100)
                  two_accounts)).
  discriminate.
Defined.

Lemma call_is_create_or_not (c : call) :
  (exists account_type holder initial_balance,
     c = SysCreateAccount account_type holder initial_balance) \/
  (forall account_type holder initial_balance,
     c <> SysCreateAccount account_type holder initial_balance).
Proof. destruct c; try (right; discriminate). left. eauto. Qed.

Lemma perform_create_run account_type holder initial_balance w :
  snd (perform (SysCreateAccount account_type holder initial_balance) w) =
  snd (run (create_account account_type holder initial_balance) w).
Proof.
  unfold perform, bind, run.
  now destruct (create_account account_type holder initial_balance w)
    as [[l|e|] w'].
Qed.

Lemma reachable_registry (w : world) :
  reachable w ->
  numbered w /\ registry_consistent w /\ registry_complete w.
Proof.
  intros Hreach.
  induction Hreach as [|c w Hreach (Hn & Hcons & Hcomp) Hargs].
  - split; [apply numbered_fresh_world|]. split.
    + intros k l Hk. simpl in Hk. now rewrite lookup_empty in Hk.
    + intros l a Hl. simpl in Hl. now rewrite lookup_empty in Hl.
  - destruct (call_is_create_or_not c) as [(t & o & b & ->) | Hc].
    + rewrite perform_create_run, create_account_run.
      destruct (class_of_type t) as [cl|]; simpl; [|auto].
      pose proof (numbered_next_free w Hn) as Hfree.
      pose proof (fresh_reference_unused w) as Hnew.
      split; [apply numbered_insert, Hn|]. split.
      * intros k l Hk. simpl in *.
        rewrite lookup_insert in Hk. case_decide; simplify_eq.
        -- rewrite lookup_insert_eq. eauto.
        -- destruct (Hcons k l Hk) as (a & Ha & Hnum).
           rewrite lookup_insert_ne by congruence. eauto.
      * intros l a Hl. simpl in *.
        rewrite lookup_insert in Hl. case_decide; simplify_eq.
        -- simpl. apply lookup_insert_eq.
        -- pose proof (Hcomp l a Hl) as Hk.
           rewrite lookup_insert_ne by congruence. exact Hk.
    + destruct (perform_keeps_registry c w Hc) as [Hacc Habs].
      split; [|split].
      * intros s. rewrite Hacc. apply Hn.
      * intros k l Hk. rewrite Hacc in Hk.
        destruct (Hcons k l Hk) as (a & Ha & Hnum).
        destruct (perform_keeps_fixed c w l a Ha)
          as (a' & Ha' & Hnum' & _).
        exists a'. split; [exact Ha' | congruence].
      * intros l a' Hl'. rewrite Hacc.
        destruct (heap w !! l) as [a|] eqn:Hl.
        -- destruct (perform_keeps_fixed c w l a Hl)
             as (a'' & Ha'' & Hnum'' & _).
           replace a'' with a' in * by congruence.
           rewrite Hnum''. now apply Hcomp.
        -- rewrite (Habs l Hl) in Hl'. discriminate.
Qed.

Lemma two_accounts_reachable : reachable two_accounts.
Proof.
  assert (E : two_accounts =
              snd (perform (SysCreateAccount "credit" "Bob" 0)
                     (snd (perform (SysCreateAccount "debit" "Alice" 200)
                             fresh_world))))
    by (vm_compute; reflexivity).
  rewrite E. repeat (apply reachable_step; [|exact I]). apply reachable_fresh.
Qed.

(** X4: in every world reached from the empty registry through the
    module's calls, the registry's keys are the account numbers of 1..len,
    every entry leads to the object that carries the key as its account
    number, every object is registered under its account number, and two
    different keys never lead to the same object. *)
Theorem reachable_registry_is_consistent (w : world) :
  reachable w ->
  numbered w /\ registry_consistent w /\ registry_complete w /\
  (forall k1 k2 l, accounts w !! k1 = Some l -> accounts w !! k2 = Some l ->
                   k1 = k2).
Proof.
  intros Hreach.
  assert (H : numbered w /\ registry_consistent w /\ registry_complete w).
  { now apply reachable_registry. }
  destruct H as (Hn & Hcons & Hcomp). split_and!; auto.
  intros k1 k2 l H1 H2.
  destruct (Hcons k1 l H1) as (a1 & Ha1 & <-).
  destruct (Hcons k2 l H2) as (a2 & Ha2 & <-). congruence.
Qed.

Lemma reachable_registry_is_consistent_witness :
  numbered (snd (perform (SysCreateAccount "debit" "Alice" 200) fresh_world)).
Proof.
  apply reachable_registry_is_consistent.
  apply reachable_step; [apply reachable_fresh | exact I].
Defined.

(** ** [monthly_update] *)

Lemma apply_monthly_changes_local l w1 w2 :
  heap w1 !! l = heap w2 !! l ->
  heap (snd (apply_monthly_changes l w1)) !! l =
  heap (snd (apply_monthly_changes l w2)) !! l.
Proof.
  intros H. unfold_methods. simpl. rewrite <- H.
  destruct (heap w1 !! l) as [a|] eqn:Hl; simpl; [|congruence].
  destruct (cls a) eqn:Hc; simpl; rewrite <- ?H, ?Hl; simpl; rewrite ?Hc; simpl.
  - congruence.
  - destruct (is_active a); simpl; [|congruence].
    rewrite !lookup_insert_eq. simpl.
    destruct (Qltb _ _); simpl; rewrite ?lookup_insert_eq; simpl;
      rewrite ?lookup_insert_eq; reflexivity.
  - destruct (is_active a && Qgtb credit_balance 0); simpl; [|congruence].
    now rewrite !lookup_insert_eq.
Qed.

Lemma apply_monthly_changes_returns l w :
  is_Some (heap w !! l) -> fst (apply_monthly_changes l w) = Return tt.
Proof.
  intros Hl.
  pose proof (apply_monthly_changes_not_stuck l w Hl) as Hs.
  pose proof (apply_monthly_changes_no_raise l w) as Hr.
  destruct (apply_monthly_changes l w) as [[[]|e|] w']; simpl in *;
    [reflexivity | now destruct (Hr e) | now destruct Hs].
Qed.

Lemma monthly_loop_each_once ls : forall w,
  NoDup ls ->
  (forall l, l ∈ ls -> is_Some (heap w !! l)) ->
  fst (for_each apply_monthly_changes ls w) = Return tt /\
  forall l, l ∈ ls ->
    heap (snd (for_each apply_monthly_changes ls w)) !! l =
    heap (snd (apply_monthly_changes l w)) !! l.
Proof.
  induction ls as [|l' ls IH]; intros w Hnd Hlive; simpl.
  { split; [reflexivity|]. intros l Hl. inversion Hl. }
  apply NoDup_cons in Hnd as [Hnot Hnd]. unfold bind.
  assert (Hhead : l' ∈ l' :: ls) by now left.
  pose proof (apply_monthly_changes_returns l' w (Hlive l' Hhead)) as Hret.
  pose proof (fun l => apply_monthly_changes_live l' w l) as Hkeep.
  pose proof (fun l => apply_monthly_changes_frame l l' w) as Hframe.
  destruct (apply_monthly_changes l' w) as [o w1] eqn:Hstep.
  simpl in Hret. subst o. simpl in *.
  assert (Hlive1 : forall l, l ∈ ls -> is_Some (heap w1 !! l)).
  { intros l Hl. apply Hkeep, Hlive. now right. }
  destruct (IH w1 Hnd Hlive1) as [Hfst Heach]. split; [exact Hfst|].
  intros l Hl. apply elem_of_cons in Hl as [-> | Hl].
  - rewrite monthly_loop_frame by exact Hnot. now rewrite Hstep.
  - assert (Hne : l <> l') by (intros ->; contradiction).
    rewrite (Heach l Hl). apply apply_monthly_changes_local.
    now apply Hframe.
Qed.

(** X5: on a consistent registry [monthly_update] returns without an
    error and leaves the registry as it is; every registered account ends
    as one period update of that account alone leaves it, whatever the
    order of the loop, and an object that is not registered is not
    touched. *)
Theorem monthly_update_updates_each_once (w : world) :
  registry_consistent w ->
  fst (run monthly_update w) = Return tt /\
  accounts (snd (run monthly_update w)) = accounts w /\
  (forall k l, accounts w !! k = Some l ->
     heap (snd (run monthly_update w)) !! l =
     heap (snd (run (apply_monthly_changes l) w)) !! l) /\
  (forall l, (forall k, accounts w !! k <> Some l) ->
     heap (snd (run monthly_update w)) !! l = heap w !! l).
Proof.
  intros Hcons. unfold run, monthly_update, bind, get_accounts. simpl.
  set (ls := map snd (map_to_list (accounts w))).
  assert (Hin : forall l, l ∈ ls <-> exists k, accounts w !! k = Some l).
  { intros l. unfold ls. split.
    - intros Hl. apply list_elem_of_fmap in Hl as [[k l'] [-> Hk]].
      apply elem_of_map_to_list in Hk. eauto.
    - intros [k Hk]. apply list_elem_of_fmap. exists (k, l).
      split; [reflexivity|]. now apply elem_of_map_to_list. }
  assert (Hnd : NoDup ls).
  { unfold ls. apply (NoDup_fmap_2_strong snd); [|apply NoDup_map_to_list].
    intros [k1 l1] [k2 l2] H1 H2 Heq. simpl in Heq. subst l2.
    apply elem_of_map_to_list in H1, H2.
    destruct (Hcons k1 l1 H1) as (a1 & Ha1 & <-).
    destruct (Hcons k2 l1 H2) as (a2 & Ha2 & <-). congruence. }
  assert (Hlive : forall l, l ∈ ls -> is_Some (heap w !! l)).
  { intros l Hl. apply Hin in Hl as [k Hk].
    destruct (Hcons k l Hk) as (a & Ha & _). eauto. }
  destruct (monthly_loop_each_once ls w Hnd Hlive) as [Hfst Heach].
  split_and!.
  - exact Hfst.
  - apply monthly_loop_keeps_registry.
  - intros k l Hk. apply Heach, Hin. eauto.
  - intros l Hl. apply monthly_loop_frame. intros Hmem.
    apply Hin in Hmem as [k Hk]. now apply (Hl k).
Qed.

Lemma monthly_update_updates_each_once_witness :
  fst (run monthly_update two_accounts) = Return tt.
Proof.
  apply monthly_update_updates_each_once.
  apply (reachable_registry two_accounts two_accounts_reachable).
Defined.

(** ** Transfers *)



(** X7: a transfer out of an active [CreditAccount] within its limit
    returns [True], raises the amount the account owes by the amount and
    adds the amount to the target's [balance]; the account's own
    [balance] is untouched unless it is its own target, in which case it
    owes the amount more and holds the amount more. *)
Theorem credit_transfer_effect (w : world) (self target : loc)
    (a t : BankAccount) (credit_limit credit_balance interest_rate amount : Q) :
  heap w !! self = Some a ->
  heap w !! target = Some t ->
  cls a = CreditAccount credit_limit credit_balance interest_rate ->
  is_active a = true ->
  (credit_balance + amount <= credit_limit)%Q ->
  fst (run (transfer self target amount) w) = Return true /\
  owed (snd (run (transfer self target amount) w)) self
    = Some (credit_balance + amount)%Q /\
  exists a' t',
    heap (snd (run (transfer self target amount) w)) !! self = Some a' /\
    heap (snd (run (transfer self target amount) w)) !! target = Some t' /\
    balance t' = (balance t + amount)%Q /\
    is_active t' = is_active t /\
    fixed_attributes (cls t') = fixed_attributes (cls t) /\
    (self <> target -> balance a' = balance a /\ cls t' = cls t).
Proof.
  intros Hself Htarget Hcls Hon Hle.
  apply Qgtb_false in Hle. unfold owed.
  unfold_methods. simpl. rewrite Hself, Hcls. simpl.
  rewrite Hself, Hcls, Hon, Hle. simpl.
  destruct (decide (self = target)) as [<-|Hne].
  - assert (t = a) by congruence. subst t.
    rewrite lookup_insert_eq. simpl. rewrite !lookup_insert_eq.
    unfold set_credit_balance, set_balance. rewrite Hcls. simpl.
    split_and!; auto. eexists _, _. split_and!; try reflexivity.
    all: simpl; rewrite ?Hcls; try reflexivity.
    intros H. now destruct H.
  - rewrite lookup_insert_ne, Htarget by exact Hne. simpl.
    rewrite lookup_insert_eq, lookup_insert_ne, lookup_insert_eq
      by congruence.
    unfold set_credit_balance, set_balance. rewrite Hcls. simpl.
    split_and!; auto. eexists _, _. split_and!; try reflexivity.
    intros _. split; reflexivity.
Qed.

Lemma credit_transfer_effect_witness :
  owed (snd (run (transfer 2%positive 1%positive 120) two_accounts)) 2%positive
  = Some (0 + 120)%Q.
Proof.
  apply (credit_transfer_effect two_accounts 2%positive 1%positive
           (mkAccount "ACC0002" "Bob" 0 true (CreditAccount 500 0 0.02))
           (mkAccount "ACC0001" "Alice" 200 true (DebitAccount 0.01 100))
           500%Q 0%Q 0.02%Q 120%Q).
  - vm_compute. reflexivity.
  - vm_compute. reflexivity.
  - reflexivity.
  - reflexivity.
  - discriminate.
Defined.

(** ** Withdrawals and deposits *)

(** X8: [withdraw] never raises; it returns [True] exactly when the
    account is active and the amount is covered, by the balance of a
    payroll or debit account or by the credit left on a credit account;
    whatever it returns, it touches no other account and not the
    registry. *)
Theorem withdraw_succeeds_iff (w : world) (l : loc) (a : BankAccount)
    (amount : Q) :
  heap w !! l = Some a ->
  (fst (run (withdraw l amount) w) = Return true \/
   fst (run (withdraw l amount) w) = Return false) /\
  (fst (run (withdraw l amount) w) = Return true <->
   is_active a = true /\ covers a amount) /\
  accounts (snd (run (withdraw l amount) w)) = accounts w /\
  (forall l', l' <> l ->
     heap (snd (run (withdraw l amount) w)) !! l' = heap w !! l').
Proof.
  intros Hl. unfold covers.
  unfold_methods. simpl. rewrite Hl. simpl.
  destruct (cls a) eqn:Hc; simpl; rewrite Hl; simpl; rewrite ?Hc; simpl.
  all: destruct (is_active a); simpl.
  all: try match goal with
           | |- context [Qgtb ?x ?y] =>
               pose proof (Qgtb_true x y) as Ht;
               pose proof (Qgtb_false x y) as Hf;
               destruct (Qgtb x y); simpl
           end.
  all: split_and!; auto; try reflexivity.
  all: try (intros l' Hne; now rewrite lookup_insert_ne by congruence).
  all: split; try discriminate; try tauto.
  all: try (intros [H _]; discriminate).
  all: intros [_ H]; exfalso; apply (Qle_not_lt _ _ H); now apply Ht.
Qed.

Lemma withdraw_succeeds_iff_witness :
  fst (run (withdraw 1%positive 500) two_accounts) = Return true \/
  fst (run (withdraw 1%positive 500) two_accounts) = Return false.
Proof.
  apply (withdraw_succeeds_iff two_accounts 1%positive
           (mkAccount "ACC0001" "Alice" 200 true (DebitAccount 0.01 100))).
  vm_compute. reflexivity.
Defined.


Lemma py_max_0_of_nonpos (x : Q) : (x <= 0)%Q -> py_max 0 x = 0%Q.
Proof.
  intros Hx. unfold py_max. apply Qgtb_false in Hx. now rewrite Hx.
Qed.


Lemma credit_deposit_run w l a credit_limit credit_balance interest_rate amount :
  heap w !! l = Some a ->
  cls a = CreditAccount credit_limit credit_balance interest_rate ->
  is_active a = true ->
  deposit l amount w =
    (Return true,
     World (<[l:=mkAccount (account_number a) (owner a) (balance a) true
                   (CreditAccount credit_limit
                      (py_max 0 (credit_balance - amount)) interest_rate)]>
              (heap w))
           (accounts w) (stdout w)).
Proof.
  intros Hl Hcls Hon.
  unfold_methods. simpl. rewrite Hl, Hcls. simpl.
  rewrite Hl, Hcls, Hon. simpl.
  unfold set_credit_balance. now rewrite Hcls, Hon.
Qed.







(** X11: a deposit on an active [CreditAccount] never raises and never
    touches the [balance]; one that covers what is owed leaves the account
    owing exactly 0, the excess being dropped, and a smaller one lowers
    the amount owed by the amount. *)
Theorem credit_deposit_clamps_at_zero (w : world) (l : loc) (a : BankAccount)
    (credit_limit credit_balance interest_rate amount : Q) :
  heap w !! l = Some a ->
  cls a = CreditAccount credit_limit credit_balance interest_rate ->
  is_active a = true ->
  fst (run (deposit l amount) w) = Return true /\
  (exists a',
     heap (snd (run (deposit l amount) w)) !! l = Some a' /\
     balance a' = balance a /\ is_active a' = true) /\
  ((credit_balance <= amount)%Q ->
   owed (snd (run (deposit l amount) w)) l = Some 0%Q) /\
  ((amount < credit_balance)%Q ->
   owed (snd (run (deposit l amount) w)) l = Some (credit_balance - amount)%Q).
Proof.
  intros Hl Hcls Hon. unfold run, owed.
  rewrite (credit_deposit_run w l a credit_limit credit_balance interest_rate
             amount Hl Hcls Hon).
  simpl. rewrite lookup_insert_eq. simpl. split_and!.
  - reflexivity.
  - eexists. split; [reflexivity|]. split; reflexivity.
  - intros Hle. rewrite py_max_0_of_nonpos; [reflexivity | lra].
  - intros Hlt. unfold py_max.
    assert (E : Qgtb (credit_balance - amount) 0 = true)
      by (apply Qgtb_true; lra).
    now rewrite E.
Qed.

Lemma credit_deposit_clamps_at_zero_witness :
  owed (snd (run (deposit 2%positive 40) two_accounts)) 2%positive = Some 0%Q.
Proof.
  destruct (credit_deposit_clamps_at_zero two_accounts 2%positive
              (mkAccount "ACC0002" "Bob" 0 true (CreditAccount 500 0 0.02))
              500%Q 0%Q 0.02%Q 40%Q) as (_ & _ & Hclamp & _).
  - vm_compute. reflexivity.
  - reflexivity.
  - reflexivity.
  - apply Hclamp. discriminate.
Defined.

(** ** Activation through the registry *)

Lemma world_eta (w : world) : World (heap w) (accounts w) (stdout w) = w.
Proof. now destruct w. Qed.

(** X12: [deactivate_account] and [activate_account] of the registry do
    nothing for an account number that is not registered; for a registered
    one they set the flag and nothing else, activation asks for no
    condition, and deactivating and then activating an active account
    gives back the world as it was. *)
Theorem registry_activation_round_trip (w : world) (k : string) :
  (accounts w !! k = None ->
   run (deactivate_account k) w = (Return tt, w) /\
   run (activate_account k) w = (Return tt, w)) /\
  (forall l a, accounts w !! k = Some l -> heap w !! l = Some a ->
     run (deactivate_account k) w =
       (Return tt,
        World (<[l:=set_is_active a false]> (heap w)) (accounts w) (stdout w)) /\
     run (activate_account k) w =
       (Return tt,
        World (<[l:=set_is_active a true]> (heap w)) (accounts w) (stdout w)) /\
     fst (run (deactivate_then_activate k) w) = Return tt /\
     heap (snd (run (deactivate_then_activate k) w)) =
       <[l:=set_is_active a true]> (heap w) /\
     (is_active a = true -> snd (run (deactivate_then_activate k) w) = w)).
Proof.
  split.
  - intros Hk. unfold run, deactivate_account, activate_account, bind,
      get_accounts. simpl. rewrite Hk. split; reflexivity.
  - intros l a Hk Hl.
    assert (Hd : run (deactivate_account k) w =
       (Return tt,
        World (<[l:=set_is_active a false]> (heap w)) (accounts w) (stdout w))).
    { unfold_methods. simpl. rewrite Hk. simpl. now rewrite Hl. }
    assert (Hboth : run (deactivate_then_activate k) w =
       (Return tt,
        World (<[l:=set_is_active a true]> (heap w)) (accounts w) (stdout w))).
    { unfold deactivate_then_activate. unfold_methods. simpl.
      rewrite Hk. simpl. rewrite Hl. simpl. rewrite Hk. simpl.
      rewrite lookup_insert_eq. simpl. now rewrite insert_insert_eq. }
    split_and!.
    + exact Hd.
    + unfold_methods. simpl. rewrite Hk. simpl. now rewrite Hl.
    + now rewrite Hboth.
    + now rewrite Hboth.
    + intros Hon. rewrite Hboth. simpl.
      replace (set_is_active a true) with a
        by (destruct a; simpl in *; now subst).
      rewrite insert_id by exact Hl. apply world_eta.
Qed.

Lemma registry_activation_round_trip_witness :
  snd (run (deactivate_then_activate "ACC0001") two_accounts) = two_accounts.
Proof.
  destruct (registry_activation_round_trip two_accounts "ACC0001")
    as [_ Hpresent].
  destruct (Hpresent 1%positive
              (mkAccount "ACC0001" "Alice" 200 true (DebitAccount 0.01 100)))
    as (_ & _ & _ & _ & Hback).
  - vm_compute. reflexivity.
  - vm_compute. reflexivity.
  - apply Hback. reflexivity.
Defined.

(** ** The reports *)

(** X13: the four reporting calls change nothing, output included.
    Through the registry they return the string "Account not found." for
    an account number that is not registered, and otherwise the number,
    owner, balance, flag and class name of the account; the amount a
    credit account owes appears in neither report. *)
Theorem reports_are_pure (w : world) :
  (forall c, is_read c -> snd (perform c w) = w) /\
  (forall k, accounts w !! k = None ->
     fst (run (get_account_info k) w) = Return (VStr "Account not found.") /\
     fst (run (get_balance_report k) w) = Return (VStr "Account not found.")) /\
  (forall k l a, accounts w !! k = Some l -> heap w !! l = Some a ->
     fst (run (get_account_info k) w) = Return (VInfo (info_of a)) /\
     fst (run (get_balance_report k) w) = Return (VFString (report_of a))) /\
  (forall a v, info_of (set_credit_balance a v) = info_of a /\
               report_of (set_credit_balance a v) = report_of a).
Proof.
  split_and!.
  - intros c Hc. destruct c; try now destruct Hc.
    all: exec; reflexivity.
  - intros k Hk. unfold_methods. simpl. rewrite Hk. split; reflexivity.
  - intros k l a Hk Hl. unfold_methods. simpl. rewrite Hk. simpl.
    rewrite Hl. split; reflexivity.
  - intros a v. unfold info_of, report_of, set_credit_balance.
    destruct (cls a) eqn:E; simpl; rewrite ?E; split; reflexivity.
Qed.

Lemma reports_are_pure_witness :
  snd (perform (SysGetAccountInfo "ACC0002") two_accounts) = two_accounts.
Proof.
  apply (proj1 (reports_are_pure two_accounts) (SysGetAccountInfo "ACC0002")).
  exact I.
Defined.

(** X14: [get_account_info] on the number of an account that
    [create_account] has just returned shows the next free account
    number, the owner and the initial balance as given, an active flag and
    the class of the requested type. *)
Theorem create_then_get_info_round_trip (account_type holder : string)
    (initial_balance : Q) (c : subclass) (w : world) :
  class_of_type account_type = Some c ->
  fst (run (create_then_get_info account_type holder initial_balance) w) =
    Return (VInfo (mkInfo (account_number_of (size (accounts w) + 1)) holder
                     initial_balance true (class_name c))).
Proof.
  intros Hc. unfold run, create_then_get_info, bind.
  pose proof (create_account_run account_type holder initial_balance w) as Hr.
  unfold run in Hr. rewrite Hr, Hc. simpl.
  unfold get_obj. simpl. rewrite lookup_insert_eq. simpl.
  unfold_methods. simpl. rewrite lookup_insert_eq. simpl.
  rewrite lookup_insert_eq. reflexivity.
Qed.

Lemma create_then_get_info_round_trip_witness :
  fst (run (create_then_get_info "payroll" "Pat" 10) two_accounts) =
    Return (VInfo (mkInfo (account_number_of (size (accounts two_accounts) + 1))
                     "Pat" 10 true "PayrollAccount")).
Proof.
  apply (create_then_get_info_round_trip "payroll" "Pat" 10 PayrollAccount).
  reflexivity.
Defined.

(** ** Balances under non-negative amounts *)

Ltac balance_fields :=
  unfold balance_nonneg, set_credit_balance, set_balance, set_is_active,
    BankAccount_init in *; simpl in *;
  repeat match goal with
         | E : cls ?a = _ |- _ => rewrite E in *; clear E
         end; simpl in *.

Lemma apply_monthly_changes_balance_nonneg l' w l a :
  heap w !! l = Some a -> balance_nonneg a ->
  exists a', heap (snd (apply_monthly_changes l' w)) !! l = Some a' /\
             balance_nonneg a'.
Proof.
  intros Hl Ha. exec; lookup_cases; lookup_goal; eauto.
  all: eexists; split; [reflexivity|]; Qcmp_hyps; balance_fields; try tauto.
  all: destruct Ha as [Hb Hr]; split; [|exact Hr].
  all: now apply Qmult_le_0_compat.
Qed.

Lemma perform_keeps_balance_nonneg (c : call) (w : world) (l : loc)
    (a : BankAccount) :
  heap w !! l = Some a -> balance_nonneg a -> nonneg_args c ->
  exists a', heap (snd (perform c w)) !! l = Some a' /\ balance_nonneg a'.
Proof.
  intros Hl Ha Hargs. destruct c; simpl in Hargs.
  9: { unfold perform, bind.
       destruct (monthly_update_invariant balance_nonneg
                   apply_monthly_changes_balance_nonneg w l a Hl Ha)
         as (a' & Hl' & Ha').
       destruct (monthly_update w) as [[[]|e|] w']; simpl in *; eauto. }
  4: { unfold perform, bind.
       destruct (apply_monthly_changes_balance_nonneg self w l a Hl Ha)
         as (a' & Hl' & Ha').
       destruct (apply_monthly_changes self w) as [[[]|e|] w']; simpl in *;
         eauto. }
  all: exec; lookup_cases; lookup_goal; eauto.
  all: try (exfalso; pose proof (fresh_reference_unused w); congruence).
  all: eexists; split; [reflexivity|]; Qcmp_hyps; balance_fields;
    try tauto.
  all: destruct Ha as [Hb Hr]; split; try exact Hr; try exact I; try lra.
Qed.

(** X15: when every account holds a non-negative balance and every debit
    account an interest rate of at least -1, a call with non-negative
    amounts leaves it so: no withdrawal, transfer or period update of the
    module overdraws an account, and an account opened with a
    non-negative balance starts within the invariant. *)
Theorem balances_stay_nonnegative (c : call) (w : world) :
  balances_nonneg w -> nonneg_args c ->
  balances_nonneg (snd (perform c w)).
Proof.
  intros Hw Hargs l a' Hl'.
  destruct (heap w !! l) as [a|] eqn:Hl.
  - destruct (perform_keeps_balance_nonneg c w l a Hl (Hw l a Hl) Hargs)
      as (a'' & Ha'' & Hok).
    now replace a' with a'' by congruence.
  - destruct (call_is_create_or_not c) as [(t & o & b & ->) | Hc].
    + rewrite perform_create_run, create_account_run in Hl'.
      destruct (class_of_type t) as [cl|] eqn:Ht; simpl in Hl';
        [|congruence].
      rewrite lookup_insert in Hl'. case_decide; [|congruence].
      injection Hl' as <-. simpl in Hargs.
      split; [exact Hargs|]. simpl.
      unfold class_of_type in Ht.
      repeat match type of Ht with
             | (if ?b then _ else _) = _ => destruct b
             end; simplify_eq; try exact I.
      discriminate.
    + destruct (perform_keeps_registry c w Hc) as [_ Habs].
      rewrite (Habs l Hl) in Hl'. discriminate.
Qed.

Lemma two_accounts_heap :
  heap two_accounts =
    <[2%positive:=mkAccount "ACC0002" "Bob" 0 true (CreditAccount 500 0 0.02)]>
      (<[1%positive:=mkAccount "ACC0001" "Alice" 200 true
                       (DebitAccount 0.01 100)]> ∅).
Proof. vm_compute. reflexivity. Qed.

Lemma two_accounts_nonneg : balances_nonneg two_accounts.
Proof.
  intros l a Hl. rewrite two_accounts_heap in Hl.
  rewrite lookup_insert in Hl. case_decide.
  - injection Hl as <-. split; [discriminate | exact I].
  - rewrite lookup_insert in Hl. case_decide.
    + injection Hl as <-. split; discriminate.
    + now rewrite lookup_empty in Hl.
Qed.

Lemma balances_stay_nonnegative_witness :
  balances_nonneg (snd (perform (Transfer 1%positive 2%positive 50) two_accounts)).
Proof.
  apply balances_stay_nonnegative.
  - exact two_accounts_nonneg.
  - discriminate.
Defined.

(** ** Compound interest *)

Lemma debit_apply_run w l a r m :
  heap w !! l = Some a ->
  cls a = DebitAccount r m ->
  is_active a = true ->
  (m <= balance a * (1 + r))%Q ->
  apply_monthly_changes l w =
    (Return tt,
     World (<[l:=mkAccount (account_number a) (owner a) (balance a * (1 + r))
                   true (DebitAccount r m)]> (heap w))
           (accounts w) (stdout w)).
Proof.
  intros Hl Hcls Hon Hle. apply Qgtb_false in Hle.
  unfold_methods. simpl. rewrite Hl, Hcls. simpl.
  rewrite Hl, Hcls, Hon. simpl. rewrite lookup_insert_eq. simpl.
  unfold Qltb. rewrite Hle. simpl.
  unfold set_balance. now rewrite Hcls, Hon.
Qed.

Lemma Qpower_succ (q : Q) (n : nat) :
  (q ^ Z.of_nat (S n) == q * q ^ Z.of_nat n)%Q.
Proof.
  rewrite Nat2Z.inj_succ, <- Z.add_1_l.
  rewrite Qpower_plus' by lia. now rewrite Qpower_1_r.
Qed.

Lemma growth_keeps_above (b r m : Q) :
  (0 <= r)%Q -> (0 <= b)%Q -> (m <= b)%Q ->
  (0 <= b * (1 + r))%Q /\ (m <= b * (1 + r))%Q.
Proof.
  intros Hr Hb Hm.
  assert (H : (0 <= b * r)%Q) by now apply Qmult_le_0_compat.
  split; lra.
Qed.

(** X16: a [DebitAccount] that is active, holds a non-negative balance at
    or above its required balance and has a non-negative interest rate
    stays active through any number of period updates, which never fail,
    and after [n] of them holds its balance times [(1 + interest_rate)^n];
    nothing else about it changes. *)
Theorem debit_compound_growth (n : nat) : forall (w : world) (l : loc)
    (a : BankAccount) (r m : Q),
  heap w !! l = Some a ->
  cls a = DebitAccount r m ->
  is_active a = true ->
  (0 <= r)%Q -> (0 <= balance a)%Q -> (m <= balance a)%Q ->
  fst (run (periods n l) w) = Return tt /\
  exists a',
    heap (snd (run (periods n l) w)) !! l = Some a' /\
    is_active a' = true /\ cls a' = cls a /\
    account_number a' = account_number a /\ owner a' = owner a /\
    (balance a' == balance a * (1 + r) ^ Z.of_nat n)%Q.
Proof.
  induction n as [|n IH]; intros w l a r m Hl Hcls Hon Hr Hb Hm.
  - split; [reflexivity|]. exists a. simpl. split_and!; auto. ring.
  - destruct (growth_keeps_above (balance a) r m Hr Hb Hm) as [Hb1 Hm1].
    unfold run, periods. simpl. unfold bind.
    rewrite (debit_apply_run w l a r m Hl Hcls Hon Hm1).
    set (a1 := mkAccount (account_number a) (owner a) (balance a * (1 + r))
                 true (DebitAccount r m)).
    set (w1 := World (<[l:=a1]> (heap w)) (accounts w) (stdout w)).
    destruct (IH w1 l a1 r m) as (Hret & a' & Hl' & Hon' & Hc' & Hn' & Ho' & Hbal);
      try reflexivity; try assumption.
    { apply lookup_insert_eq. }
    unfold run, periods in Hret, Hl'.
    split; [exact Hret|]. exists a'. split_and!; auto.
    + rewrite Hc'. now rewrite Hcls.
    + apply Qeq_trans with (balance a1 * (1 + r) ^ Z.of_nat n)%Q;
        [exact Hbal|].
      change (balance a1) with (balance a * (1 + r))%Q.
      apply Qeq_trans with (balance a * ((1 + r) * (1 + r) ^ Z.of_nat n))%Q;
        [ring|].
      apply Qmult_comp; [reflexivity|].
      apply Qeq_sym. exact (Qpower_succ (1 + r) n).
Qed.

Lemma debit_compound_growth_witness :
  fst (run (periods 12 1%positive) two_accounts) = Return tt.
Proof.
  apply (debit_compound_growth 12 two_accounts 1%positive
           (mkAccount "ACC0001" "Alice" 200 true (DebitAccount 0.01 100))
           0.01%Q 100%Q).
  - vm_compute. reflexivity.
  - reflexivity.
  - reflexivity.
  - discriminate.
  - discriminate.
  - discriminate.
Defined.

(** ** What a [PayrollAccount] receives *)

Lemma apply_monthly_changes_payroll l' w l a :
  cls a = PayrollAccount ->
  heap w !! l = Some a ->
  heap (snd (apply_monthly_changes l' w)) !! l = Some a.
Proof.
  intros Hc Hl. destruct (decide (l = l')) as [<-|Hne].
  - unfold_methods. simpl. rewrite Hl, Hc. simpl. exact Hl.
  - now rewrite apply_monthly_changes_frame.
Qed.

(** X17: no call other than a transfer raises the balance of a
    [PayrollAccount] when amounts are not negative: its own [deposit]
    raises an error, its [withdraw] only lowers the balance and period
    updates leave it alone.  Money reaches a payroll account only as the
    target of another account's transfer. *)
Theorem payroll_balance_grows_only_by_transfer (c : call) (w : world)
    (l : loc) (a : BankAccount) :
  heap w !! l = Some a ->
  cls a = PayrollAccount ->
  nonneg_args c ->
  (forall s t x, c <> Transfer s t x) ->
  (forall f t x, c <> SysTransferFunds f t x) ->
  exists a', heap (snd (perform c w)) !! l = Some a' /\
             cls a' = PayrollAccount /\ (balance a' <= balance a)%Q.
Proof.
  intros Hl Hcls Hargs Hnt Hnf. destruct c; simpl in Hargs.
  9: { unfold perform, bind.
       destruct (monthly_update_invariant (fun a' => a' = a)) with (w := w)
         (l := l) (a := a) as (a' & Hl' & ->); auto.
       { intros l' w0 l0 a0 Hl0 ->. exists a. split; [|reflexivity].
         now apply apply_monthly_changes_payroll. }
       destruct (monthly_update w) as [[[]|e|] w']; simpl in *;
         exists a; split_and!; auto; apply Qle_refl. }
  8: { now edestruct Hnf. }
  3: { now edestruct Hnt. }
  all: exec; lookup_cases; lookup_goal; try congruence.
  all: try (exfalso; pose proof (fresh_reference_unused w); congruence).
  all: eexists; split; [eassumption || reflexivity|]; Qcmp_hyps; simpl;
    (split; [assumption|]); try apply Qle_refl.
  all: lra.
Qed.

Lemma payroll_balance_grows_only_by_transfer_witness :
  exists a',
    heap (snd (perform (Withdraw 1%positive 4)
                 (World {[1%positive := mkAccount "ACC0001" "Pat" 10 true
                                          PayrollAccount]} ∅ [])))
      !! 1%positive = Some a' /\
    cls a' = PayrollAccount /\ (balance a' <= 10)%Q.
Proof.
  apply (payroll_balance_grows_only_by_transfer (Withdraw 1%positive 4)
           (World {[1%positive := mkAccount "ACC0001" "Pat" 10 true
                                    PayrollAccount]} ∅ [])
           1%positive (mkAccount "ACC0001" "Pat" 10 true PayrollAccount)).
  - reflexivity.
  - reflexivity.
  - discriminate.
  - discriminate.
  - discriminate.
Defined.

(** ** Interest on the amount owed *)



